(** * raftstore/store_check.go: message validation and snapshot admission

    A shallow embedding of [isRaftMsgValid], [isMsgStale], [checkSnapshot]
    and [inPending] of package [raftstore], with the properties their
    specification states about them.

    Go values are modelled as follows.
    - [uint64] identifiers and versions are [N]; the code only compares them.
    - [[]byte] keys and payloads are [list byte].
    - A pointer that may be [nil] is an [option]; reading a field through it
      is [deref], which panics on [None] as the Go runtime does.
    - A method of [*Store] is a computation in the monad [M]: it threads the
      store and the list of stale-message dispositions issued so far, and it
      ends in a returned value or in a panic.  Log lines are not modelled. *)

From stdpp Require Import gmap list strings.
From Stdlib Require Import ZArith NArith.
From Stdlib.Strings Require Import Byte.

Local Open Scope Z_scope.

(** ** Byte strings *)

Module bytes.

(** [bytes.Compare]: lexicographic comparison, -1, 0 or 1. *)
Fixpoint Compare (a b : list byte) : Z :=
  match a, b with
  | [], [] => 0
  | [], _ :: _ => -1
  | _ :: _, [] => 1
  | x :: a', y :: b' =>
      match N.compare (Byte.to_N x) (Byte.to_N y) with
      | Lt => -1
      | Gt => 1
      | Eq => Compare a' b'
      end
  end.

End bytes.

(** ** Protocol buffers: metapb, raftpb, mraft *)

Module Peer.
Record t := mk { ID : N; StoreID : N }.
End Peer.

Module CellEpoch.
Record t := mk { ConfVer : N; CellVer : N }.
End CellEpoch.

Module Cell.
Record t := mk {
  ID : N;
  Start : list byte;
  End : list byte;
  Epoch : CellEpoch.t;
  Peers : list Peer.t
}.
End Cell.

(** [raftpb.MessageType] of etcd/raft. *)
Inductive MessageType :=
| MsgHup | MsgBeat | MsgProp | MsgApp | MsgAppResp | MsgVote | MsgVoteResp
| MsgSnap | MsgHeartbeat | MsgHeartbeatResp | MsgUnreachable | MsgSnapStatus
| MsgCheckQuorum | MsgTransferLeader | MsgTimeoutNow | MsgReadIndex
| MsgReadIndexResp | MsgPreVote | MsgPreVoteResp.

Definition MessageType_eqb (a b : MessageType) : bool :=
  match a, b with
  | MsgHup, MsgHup | MsgBeat, MsgBeat | MsgProp, MsgProp | MsgApp, MsgApp
  | MsgAppResp, MsgAppResp | MsgVote, MsgVote | MsgVoteResp, MsgVoteResp
  | MsgSnap, MsgSnap | MsgHeartbeat, MsgHeartbeat
  | MsgHeartbeatResp, MsgHeartbeatResp | MsgUnreachable, MsgUnreachable
  | MsgSnapStatus, MsgSnapStatus | MsgCheckQuorum, MsgCheckQuorum
  | MsgTransferLeader, MsgTransferLeader | MsgTimeoutNow, MsgTimeoutNow
  | MsgReadIndex, MsgReadIndex | MsgReadIndexResp, MsgReadIndexResp
  | MsgPreVote, MsgPreVote | MsgPreVoteResp, MsgPreVoteResp => true
  | _, _ => false
  end.

Module Snapshot.
Record t := mk { Data : list byte }.
End Snapshot.

Module Message.
Record t := mk { Type_ : MessageType; Snapshot : Snapshot.t }.
End Message.

Module RaftMessage.
Record t := mk {
  CellID : N;
  FromPeer : Peer.t;
  ToPeer : Peer.t;
  CellEpoch : CellEpoch.t;
  Message : Message.t
}.
End RaftMessage.

(** Modelled from the spec: the [mraft.PeerState] enumeration is not in the
    source file.  The persisted local shard state is "one of Normal,
    Tombstone"; the code names only [mraft.Tombstone]. *)
Inductive PeerState := Normal | Tombstone.

Definition PeerState_eqb (a b : PeerState) : bool :=
  match a, b with
  | Normal, Normal | Tombstone, Tombstone => true
  | _, _ => false
  end.

Module CellLocalState.
Record t := mk { State : PeerState; Cell : Cell.t }.
End CellLocalState.

Module RaftSnapshotData.
Record t := mk { Cell : Cell.t }.
End RaftSnapshotData.

(** ** Errors *)

(** A Go [error].  The two [fmt.Errorf] sites of [isMsgStale] have a
    constructor each; an error handed back by a collaborator (storage,
    decoder) is opaque. *)
Inductive error :=
| ErrExternal (what : string)
| ErrNotTombstone (cellID : N) (localState : CellLocalState.t)
| ErrInvalidTombstoneMsg (epoch : CellEpoch.t) (msg : RaftMessage.t).

(** ** The store *)

(** Modelled from the spec: [peerStorage] is not in the source file.  Its
    [isInitialized] answers whether the replica's local storage "is already
    initialized (has prior state)"; the model keeps that answer and the
    replica's current shard descriptor. *)
Module peerStorage.
Record t := mk { cell : Cell.t; initialized : bool }.
End peerStorage.

Module PeerReplicate.
Record t := mk { ps : peerStorage.t }.
End PeerReplicate.

(** The fields of [Store] that the checks read or write: the node id, the
    live-replica registry behind [getPeerReplicate], the Key-Range Index and
    the Pending-Shard Set. *)
Module Store.
Record t := mk {
  id : N;
  replicates : gmap N PeerReplicate.t;
  keyRanges : list Cell.t;
  pendingCells : list Cell.t
}.
End Store.

(** One call of [handleStaleMsg]: the message, the epoch it was compared
    against and the force-GC flag. *)
Inductive Event :=
| StaleMsg (msg : RaftMessage.t) (epoch : CellEpoch.t) (needGC : bool).

Record World := mkWorld { store : Store.t; trace : list Event }.

(** ** The monad of store methods *)

Inductive Outcome (A : Type) :=
| Return (a : A)
| Panic.
Arguments Return {A} a.
Arguments Panic {A}.

Definition M (A : Type) : Type := World -> Outcome A * World.

Definition ret {A} (a : A) : M A := fun w => (Return a, w).

Definition bind {A B} (m : M A) (k : A -> M B) : M B :=
  fun w =>
    match m w with
    | (Return a, w') => k a w'
    | (Panic, w') => (Panic, w')
    end.

Notation "'let*' x ':=' m 'in' k" := (bind m (fun x => k))
  (at level 10, x name, m at level 100, k at level 200).
Notation "'run' m 'in' k" := (bind m (fun _ => k))
  (at level 10, m at level 100, k at level 200).

(** The Go runtime's nil-pointer check. *)
Definition panic {A} : M A := fun w => (Panic, w).

Definition deref {A} (p : option A) : M A :=
  match p with
  | Some a => ret a
  | None => panic
  end.

Definition isNotNil {A} (p : option A) : bool :=
  match p with
  | Some _ => true
  | None => false
  end.

Definition getStoreState : M Store.t := fun w => (Return (store w), w).

Definition setPendingCells (l : list Cell.t) : M unit :=
  fun w =>
    let s := store w in
    (Return tt,
     mkWorld (Store.mk (Store.id s) (Store.replicates s) (Store.keyRanges s) l)
             (trace w)).

Definition emit (e : Event) : M unit :=
  fun w => (Return tt, mkWorld (store w) (trace w ++ [e])).

(** ** Collaborators of the checks *)

(** [Store.getPeerReplicate]: the live replica registered for a shard id, or
    nil. *)
Definition getPeerReplicate (cellID : N) : M (option PeerReplicate.t) :=
  let* s := getStoreState in
  ret (Store.replicates s !! cellID).

(** [PeerReplicate.getStore] reads the field [ps] of its receiver, the field
    [isMsgStale] reads directly. *)
Definition getStore (pr : option PeerReplicate.t) : M peerStorage.t :=
  let* r := deref pr in
  ret (PeerReplicate.ps r).

(** [PeerReplicate.getCell]: the replica's current shard descriptor. *)
Definition getCell (pr : option PeerReplicate.t) : M Cell.t :=
  let* p := getStore pr in
  ret (peerStorage.cell p).

Definition isInitialized (p : peerStorage.t) : bool :=
  peerStorage.initialized p.

(** Modelled from the spec: [isEpochStale] is not in the source file.  An
    epoch is stale relative to another if it is strictly less in the order
    "(c1,v1) < (c2,v2) iff c1 < c2, or c1 == c2 and v1 < v2". *)
Definition isEpochStale (epoch checkEpoch : CellEpoch.t) : bool :=
  (CellEpoch.ConfVer epoch <? CellEpoch.ConfVer checkEpoch)%N
  || ((CellEpoch.ConfVer epoch =? CellEpoch.ConfVer checkEpoch)%N
      && (CellEpoch.CellVer epoch <? CellEpoch.CellVer checkEpoch)%N).

(** Modelled from the spec: [findPeer] is not in the source file.  Both call
    sites hand it a shard descriptor and the sender's store id and compare
    the result with nil: it is the member of the shard's peers on that
    store, if any. *)
Fixpoint findPeerIn (peers : list Peer.t) (storeID : N) : option Peer.t :=
  match peers with
  | [] => None
  | p :: rest =>
      if (Peer.StoreID p =? storeID)%N then Some p else findPeerIn rest storeID
  end.

Definition findPeer (cell : Cell.t) (storeID : N) : option Peer.t :=
  findPeerIn (Cell.Peers cell) storeID.

(** Modelled from the spec: [Store.handleStaleMsg] is not in the source
    file.  The Stale-Message Disposition Policy "only decides whether to
    notify" the sender, from the flag it is given; the model records the
    call and touches nothing else. *)
Definition handleStaleMsg (msg : RaftMessage.t) (currEpoch : CellEpoch.t)
    (needGC : bool) : M unit :=
  emit (StaleMsg msg currEpoch needGC).

(** ** Message validation *)

Definition isRaftMsgValid (msg : RaftMessage.t) : M bool :=
  let* s := getStoreState in
  if negb (Peer.StoreID (RaftMessage.ToPeer msg) =? Store.id s)%N then
    ret false
  else
    ret true.

(** Lines 77-112 of [isMsgStale]: the decision taken from what
    [loadCellLocalState] answered, an error, no record, or a record. *)
Definition checkLocalState (msg : RaftMessage.t)
    (loaded : error + option CellLocalState.t) : M (bool * option error) :=
  let cellID := RaftMessage.CellID msg in
  let fromEpoch := RaftMessage.CellEpoch msg in
  let isVoteMsg :=
    MessageType_eqb (Message.Type_ (RaftMessage.Message msg)) MsgVote in
  let fromStoreID := Peer.StoreID (RaftMessage.FromPeer msg) in
  match loaded with
  | inl err => ret (false, Some err)
  | inr None => ret (false, None)
  | inr (Some localState) =>
      if negb (PeerState_eqb (CellLocalState.State localState) Tombstone)
      then
        (* Maybe split, but not registered yet. *)
        ret (false, Some (ErrNotTombstone cellID localState))
      else
        let cellEpoch := Cell.Epoch (CellLocalState.Cell localState) in
        (* The cell in this peer is already destroyed *)
        if isEpochStale fromEpoch cellEpoch then
          let notExist :=
            negb (isNotNil
                    (findPeer (CellLocalState.Cell localState) fromStoreID))
          in
          run handleStaleMsg msg cellEpoch (isVoteMsg && notExist) in
          ret (true, None)
        else if (CellEpoch.ConfVer fromEpoch =? CellEpoch.ConfVer cellEpoch)%N
        then
          ret (false, Some (ErrInvalidTombstoneMsg cellEpoch msg))
        else
          ret (false, None)
  end.

Section MessageValidator.

(** [peerStorage.loadCellLocalState]: the persisted local shard state read
    from durable storage; an I/O error, no record, or a record. *)
Variable loadCellLocalState :
  peerStorage.t -> error + option CellLocalState.t.

Definition isMsgStale (msg : RaftMessage.t) : M (bool * option error) :=
  let cellID := RaftMessage.CellID msg in
  let fromEpoch := RaftMessage.CellEpoch msg in
  let isVoteMsg :=
    MessageType_eqb (Message.Type_ (RaftMessage.Message msg)) MsgVote in
  let fromStoreID := Peer.StoreID (RaftMessage.FromPeer msg) in
  let* peers := getPeerReplicate cellID in
  if isNotNil peers then
    let* c := getCell peers in
    let epoch := Cell.Epoch c in
    if isEpochStale fromEpoch epoch && isNotNil (findPeer c fromStoreID) then
      run handleStaleMsg msg epoch isVoteMsg in
      ret (true, None)
    else
      ret (false, None)
  else
    (* no exist, check with tombstone key: [peers.ps.loadCellLocalState(nil)]
       reads the field [ps] through [peers] *)
    let* r := deref peers in
    checkLocalState msg (loadCellLocalState (PeerReplicate.ps r)).

End MessageValidator.

(** ** Keys and the Key-Range Index *)

(** Modelled from the spec: [encStartKey] and [encEndKey] are not in the
    source file.  The intersection test treats "an empty end key as
    unbounded".  The model puts every key under the one-byte data prefix and
    encodes the empty end key as the byte string just above that prefix,
    which is greater than every encoded key. *)
Definition dataPrefix : byte := "z"%byte.

Definition dataMaxKey : list byte := ["{"%byte].

Definition getDataKey (key : list byte) : list byte := dataPrefix :: key.

Definition encStartKey (cell : Cell.t) : list byte :=
  getDataKey (Cell.Start cell).

Definition encEndKey (cell : Cell.t) : list byte :=
  match Cell.End cell with
  | [] => dataMaxKey
  | _ :: _ => getDataKey (Cell.End cell)
  end.

(** The sentinel [Search] hands back when it finds nothing: the zero value
    of [metapb.Cell], whose [ID] is 0. *)
Definition emptyCell : Cell.t :=
  Cell.mk 0%N [] [] (CellEpoch.mk 0%N 0%N) [].

(** Modelled from the spec: the Key-Range Index and its [Search] are not in
    the source file.  [Search key] is "the live shard whose start key is the
    greatest start key <= key, or empty/sentinel if none".  The index is
    modelled by the list of the live shards' descriptors. *)
Definition searchStep (key : list byte) (best : option Cell.t) (c : Cell.t)
    : option Cell.t :=
  if bytes.Compare (Cell.Start c) key <=? 0 then
    match best with
    | None => Some c
    | Some b =>
        if bytes.Compare (Cell.Start b) (Cell.Start c) <? 0 then Some c
        else best
    end
  else best.

Definition Search (keyRanges : list Cell.t) (key : list byte) : Cell.t :=
  match fold_left (searchStep key) keyRanges None with
  | Some c => c
  | None => emptyCell
  end.

(** ** Snapshot admission *)

(** The loop over [snapCell.Peers] that sets [found]. *)
Fixpoint containsPeerID (peers : list Peer.t) (peerID : N) : bool :=
  match peers with
  | [] => false
  | p :: rest =>
      if (Peer.ID p =? peerID)%N then true else containsPeerID rest peerID
  end.

(** The condition of the loop over [s.pendingCells]. *)
Definition pendingOverlaps (snapCell c : Cell.t) : bool :=
  (bytes.Compare (encStartKey c) (encEndKey snapCell) <? 0)
  && (bytes.Compare (encEndKey c) (encStartKey snapCell) >? 0)
  && negb (Cell.ID c =? Cell.ID snapCell)%N.

Fixpoint anyPendingOverlaps (pending : list Cell.t) (snapCell : Cell.t)
    : bool :=
  match pending with
  | [] => false
  | c :: rest =>
      if pendingOverlaps snapCell c then true
      else anyPendingOverlaps rest snapCell
  end.

(** Lines 150-175 of [checkSnapshot]: the overlap checks against the live
    shards and the pending shards, and the admission, once the payload is
    decoded and the target peer is found in it. *)
Definition checkOverlap (snapCell : Cell.t) : M (bool * option error) :=
  let* s := getStoreState in
  let item := Search (Store.keyRanges s) (Cell.Start snapCell) in
  let* liveOverlapped :=
    if (0 <? Cell.ID item)%N then
      let* pe := getPeerReplicate (Cell.ID item) in
      let* exist := getCell pe in
      ret (bytes.Compare (encStartKey exist) (encEndKey snapCell) <? 0)
    else
      ret false
  in
  if liveOverlapped then
    ret (false, None)
  else
    let* s := getStoreState in
    if anyPendingOverlaps (Store.pendingCells s) snapCell then
      ret (false, None)
    else
      run setPendingCells (Store.pendingCells s ++ [snapCell]) in
      ret (true, None).

Section SnapshotAdmission.

(** [RaftSnapshotData.Unmarshal]: the protobuf decoder of the payload. *)
Variable Unmarshal : list byte -> error + RaftSnapshotData.t.

Definition checkSnapshot (msg : RaftMessage.t) : M (bool * option error) :=
  (* Check if we can accept the snapshot *)
  let* pr := getPeerReplicate (RaftMessage.CellID msg) in
  let* st := getStore pr in
  let snap := Message.Snapshot (RaftMessage.Message msg) in
  if isInitialized st || (length (Snapshot.Data snap) <=? 0)%nat then
    ret (true, None)
  else
    match Unmarshal (Snapshot.Data snap) with
    | inl err => ret (false, Some err)
    | inr snapData =>
        let snapCell := RaftSnapshotData.Cell snapData in
        let peerID := Peer.ID (RaftMessage.ToPeer msg) in
        let found := containsPeerID (Cell.Peers snapCell) peerID in
        if negb found then
          ret (false, None)
        else
          checkOverlap snapCell
    end.

End SnapshotAdmission.

Fixpoint inPendingList (pending : list Cell.t) (cell : Cell.t) : bool :=
  match pending with
  | [] => false
  | c :: rest =>
      if (Cell.ID c =? Cell.ID cell)%N then true else inPendingList rest cell
  end.

Definition inPending (cell : Cell.t) : M bool :=
  let* s := getStoreState in
  ret (inPendingList (Store.pendingCells s) cell).

(** ** The specification's vocabulary *)

(** The spec's interval intersection test: ranges [s1,e1) and [s2,e2)
    intersect iff [s1 < e2] and [s2 < e1], an empty end key meaning "to
    infinity". *)
Definition keyBefore (start end_ : list byte) : bool :=
  match end_ with
  | [] => true
  | _ :: _ => bytes.Compare start end_ <? 0
  end.

Definition intersects (a b : Cell.t) : bool :=
  keyBefore (Cell.Start a) (Cell.End b) && keyBefore (Cell.Start b) (Cell.End a).

(** The number of pending entries registered under one shard id. *)
Fixpoint pendingCount (pending : list Cell.t) (cellID : N) : nat :=
  match pending with
  | [] => O
  | c :: rest =>
      if (Cell.ID c =? cellID)%N then S (pendingCount rest cellID)
      else pendingCount rest cellID
  end.

(** Whether a call handed an error back to its caller. *)
Definition returnsError (r : Outcome (bool * option error)) : bool :=
  match r with
  | Return (_, Some _) => true
  | _ => false
  end.

(** ** Concrete stores and envelopes *)

Definition key (s : string) : list byte := String.list_byte_of_string s.

(** A stand-in for the protobuf decoder in the scenarios: a payload decodes
    to the descriptor the table lists for it and fails to decode
    otherwise. *)
Fixpoint tableUnmarshal (table : list (list byte * Cell.t)) (data : list byte)
    : error + RaftSnapshotData.t :=
  match table with
  | [] => inl (ErrExternal "proto: illegal wireType")
  | (d, c) :: rest =>
      if bytes.Compare d data =? 0 then inr (RaftSnapshotData.mk c)
      else tableUnmarshal rest data
  end.

(** This node is store 1; the peers of the scenarios live on stores 1, 2
    and 3. *)
Definition peerOn1 : Peer.t := Peer.mk 11%N 1%N.
Definition peerOn2 : Peer.t := Peer.mk 12%N 2%N.
Definition peerOn3 : Peer.t := Peer.mk 13%N 3%N.

Definition epoch_1_1 : CellEpoch.t := CellEpoch.mk 1%N 1%N.
Definition epoch_2_2 : CellEpoch.t := CellEpoch.mk 2%N 2%N.
Definition epoch_2_3 : CellEpoch.t := CellEpoch.mk 2%N 3%N.

(** Shard 7 after store 2 was removed from it, and before. *)
Definition cell7 : Cell.t :=
  Cell.mk 7%N (key "a") (key "m") epoch_2_2 [peerOn1; peerOn3].

Definition msgFrom2 (ty : MessageType) (epoch : CellEpoch.t) : RaftMessage.t :=
  RaftMessage.mk 7%N peerOn2 peerOn1 epoch (Message.mk ty (Snapshot.mk [])).

Definition liveReplica (c : Cell.t) : PeerReplicate.t :=
  PeerReplicate.mk (peerStorage.mk c true).

(** A replica that was just created for an incoming message and has no
    state yet. *)
Definition freshReplica (cellID : N) : PeerReplicate.t :=
  PeerReplicate.mk
    (peerStorage.mk (Cell.mk cellID [] [] (CellEpoch.mk 0%N 0%N) []) false).

(** Store 1 without a replica of any shard, and with a live replica of
    shard 7. *)
Definition storeEmpty : Store.t := Store.mk 1%N ∅ [] [].

(** Durable storage holding no record, a tombstone of shard 7, a record of
    shard 7 that is not a tombstone. *)
Definition loadNothing (_ : peerStorage.t) : error + option CellLocalState.t :=
  inr None.
Definition loadTombstone7 (_ : peerStorage.t)
    : error + option CellLocalState.t :=
  inr (Some (CellLocalState.mk Tombstone cell7)).
Definition loadNormal7 (_ : peerStorage.t) : error + option CellLocalState.t :=
  inr (Some (CellLocalState.mk Normal cell7)).

(** Shards 1 and 2 of the snapshot scenarios. *)
Definition cell1_10_20 : Cell.t :=
  Cell.mk 1%N (key "10") (key "20") epoch_1_1 [peerOn1; peerOn2].
Definition cell1_10_20_refreshed : Cell.t :=
  Cell.mk 1%N (key "10") (key "20") epoch_2_2 [peerOn1; peerOn2; peerOn3].
Definition cell1_20_30 : Cell.t :=
  Cell.mk 1%N (key "20") (key "30") epoch_1_1 [peerOn1; peerOn2].
Definition cell2_15_25 : Cell.t :=
  Cell.mk 2%N (key "15") (key "25") epoch_1_1 [peerOn1; peerOn2].

Definition scenarioUnmarshal : list byte -> error + RaftSnapshotData.t :=
  tableUnmarshal
    [(key "snapshot of shard 1", cell1_10_20);
     (key "refreshed snapshot of shard 1", cell1_10_20_refreshed);
     (key "snapshot of shard 1 at 20-30", cell1_20_30)].

Definition snapMsg (payload : string) : RaftMessage.t :=
  RaftMessage.mk 1%N peerOn2 peerOn1 epoch_1_1
    (Message.mk MsgSnap (Snapshot.mk (key payload))).

(** Store 1 with the fresh replica of shard 1, and: a live shard 2 owning
    [15,25); a pending shard 2 owning [15,25); a pending entry of shard 1
    itself. *)
Definition storeLive2 : Store.t :=
  Store.mk 1%N
    (<[ 2%N := liveReplica cell2_15_25 ]> {[ 1%N := freshReplica 1%N ]})
    [cell2_15_25] [].
Definition storePending2 : Store.t :=
  Store.mk 1%N {[ 1%N := freshReplica 1%N ]} [] [cell2_15_25].
Definition storePending1 : Store.t :=
  Store.mk 1%N {[ 1%N := freshReplica 1%N ]} [] [cell1_10_20].

(** Store 1 whose Key-Range Index lists shard 2 while no replica of shard 2
    is registered. *)
Definition storeIndexOnly2 : Store.t :=
  Store.mk 1%N {[ 1%N := freshReplica 1%N ]} [cell2_15_25] [].

(** ** The two halves of the overlap checks *)

(** The live-shard step lets the snapshot through: the search finds no live
    shard, or the replica of the shard it finds is registered and its
    encoded start key is not below the incoming encoded end key. *)
Definition passesLiveCheck (s : Store.t) (snapCell : Cell.t) : bool :=
  let item := Search (Store.keyRanges s) (Cell.Start snapCell) in
  if (0 <? Cell.ID item)%N then
    match Store.replicates s !! Cell.ID item with
    | Some pe =>
        negb (bytes.Compare
                (encStartKey (peerStorage.cell (PeerReplicate.ps pe)))
                (encEndKey snapCell) <? 0)
    | None => false
    end
  else true.

(** Every shard of the Key-Range Index has a registered replica. *)
Definition indexRegistered (s : Store.t) : bool :=
  forallb (fun c => isNotNil (Store.replicates s !! Cell.ID c))
    (Store.keyRanges s).

(** The store after [snapCell] is appended to the Pending-Shard Set. *)
Definition admitted (w : World) (snapCell : Cell.t) : World :=
  mkWorld
    (Store.mk (Store.id (store w)) (Store.replicates (store w))
       (Store.keyRanges (store w))
       (Store.pendingCells (store w) ++ [snapCell]))
    (trace w).

(** Lines 161-174: the scan of the pending shards and the admission. *)
Definition pendingStep (snapCell : Cell.t) (w : World)
    : Outcome (bool * option error) * World :=
  if anyPendingOverlaps (Store.pendingCells (store w)) snapCell then
    (Return (false, None), w)
  else
    (Return (true, None), admitted w snapCell).

(** A descriptor of shard 1 that lists the peers on stores 2 and 3 only,
    and a decoder that knows the payload carrying it. *)
Definition cell1_without_target : Cell.t :=
  Cell.mk 1%N (key "10") (key "20") epoch_1_1 [peerOn2; peerOn3].

Definition misdirectedUnmarshal : list byte -> error + RaftSnapshotData.t :=
  tableUnmarshal
    [(key "snapshot of shard 1 for other peers", cell1_without_target)].

(** ** Pending shards that do not collide *)

(** Two descriptors may be pending together: they belong to one shard, or
    their ranges do not intersect. *)
Definition compatible (c d : Cell.t) : bool :=
  (Cell.ID c =? Cell.ID d)%N || negb (intersects c d).

Definition pendingDisjoint (pending : list Cell.t) : bool :=
  forallb (fun c => forallb (compatible c) pending) pending.

(** Store 1 with fresh replicas of shards 1 and 2, and the envelopes that
    carry a snapshot to either of them. *)
Definition storeFresh12 : Store.t :=
  Store.mk 1%N
    (<[ 2%N := freshReplica 2%N ]> {[ 1%N := freshReplica 1%N ]}) [] [].

Definition twoShardUnmarshal : list byte -> error + RaftSnapshotData.t :=
  tableUnmarshal
    [(key "snapshot of shard 1", cell1_10_20);
     (key "snapshot of shard 2", cell2_15_25)].

Definition snapMsgFor (cellID : N) (payload : string) : RaftMessage.t :=
  RaftMessage.mk cellID peerOn2 peerOn1 epoch_1_1
    (Message.mk MsgSnap (Snapshot.mk (key payload))).

(** * Properties *)

(** ** Running the collaborators *)

Lemma getPeerReplicate_run (cellID : N) (w : World) :
  getPeerReplicate cellID w = (Return (Store.replicates (store w) !! cellID), w).
Proof. reflexivity. Qed.

Lemma getCell_run_Some (pr : PeerReplicate.t) (w : World) :
  getCell (Some pr) w = (Return (peerStorage.cell (PeerReplicate.ps pr)), w).
Proof. reflexivity. Qed.

Lemma getCell_run_None (w : World) :
  getCell None w = (Panic, w).
Proof. reflexivity. Qed.

Lemma getStore_run_None (w : World) :
  getStore None w = (Panic, w).
Proof. reflexivity. Qed.

(** ** The decision [isMsgStale] would take from the persisted record

    These describe lines 77-112 on their own.  No call of [isMsgStale]
    reaches them: see [isMsgStale_nil]. *)

Lemma checkLocalState_no_record (msg : RaftMessage.t) (w : World) :
  checkLocalState msg (inr None) w = (Return (false, None), w).
Proof. reflexivity. Qed.

Lemma checkLocalState_tombstone_stale
    (msg : RaftMessage.t) (w : World) (c : Cell.t) :
  isEpochStale (RaftMessage.CellEpoch msg) (Cell.Epoch c) = true ->
  checkLocalState msg (inr (Some (CellLocalState.mk Tombstone c))) w =
  (Return (true, None),
   mkWorld (store w)
     (trace w ++
      [StaleMsg msg (Cell.Epoch c)
         (MessageType_eqb (Message.Type_ (RaftMessage.Message msg)) MsgVote
          && negb (isNotNil
                     (findPeer c (Peer.StoreID (RaftMessage.FromPeer msg)))))])).
Proof.
  intros Hstale. unfold checkLocalState, bind. simpl. rewrite Hstale.
  reflexivity.
Qed.

Lemma checkLocalState_error_iff
    (msg : RaftMessage.t) (w : World) (localState : CellLocalState.t) :
  returnsError (fst (checkLocalState msg (inr (Some localState)) w)) = true <->
  CellLocalState.State localState <> Tombstone
  \/ (isEpochStale (RaftMessage.CellEpoch msg)
        (Cell.Epoch (CellLocalState.Cell localState)) = false
      /\ CellEpoch.ConfVer (RaftMessage.CellEpoch msg)
         = CellEpoch.ConfVer (Cell.Epoch (CellLocalState.Cell localState))).
Proof.
  unfold checkLocalState, bind.
  destruct localState as [[] c]; simpl.
  - split; [intros _; left; discriminate | reflexivity].
  - destruct (isEpochStale _ _); simpl.
    + split; [discriminate | intros [H|[H _]]; [contradiction|discriminate]].
    + destruct (N.eqb_spec (CellEpoch.ConfVer (RaftMessage.CellEpoch msg))
                  (CellEpoch.ConfVer (Cell.Epoch c))) as [E|E]; simpl.
      * split; [intros _; right; auto | reflexivity].
      * split; [discriminate | intros [H|[_ H]]; contradiction].
Qed.

Lemma findPeerIn_spec (peers : list Peer.t) (storeID : N) :
  isNotNil (findPeerIn peers storeID) = true <->
  exists p, In p peers /\ Peer.StoreID p = storeID.
Proof.
  induction peers as [|q rest IH]; simpl.
  - split; [discriminate | intros (p & [] & _)].
  - destruct (N.eqb_spec (Peer.StoreID q) storeID) as [E|E]; simpl.
    + split; [intros _; exists q; auto | reflexivity].
    + rewrite IH. split.
      * intros (p & Hin & Hp). exists p. auto.
      * intros (p & [->|Hin] & Hp); [contradiction | exists p; auto].
Qed.

(** ** [isMsgStale] with a live replica *)


Section MessageValidatorFacts.

Variable loadCellLocalState :
  peerStorage.t -> error + option CellLocalState.t.

Lemma isMsgStale_live (msg : RaftMessage.t) (w : World) (pr : PeerReplicate.t) :
  Store.replicates (store w) !! RaftMessage.CellID msg = Some pr ->
  isMsgStale loadCellLocalState msg w =
  let c := peerStorage.cell (PeerReplicate.ps pr) in
  if isEpochStale (RaftMessage.CellEpoch msg) (Cell.Epoch c)
     && isNotNil (findPeer c (Peer.StoreID (RaftMessage.FromPeer msg)))
  then
    (Return (true, None),
     mkWorld (store w)
       (trace w ++
        [StaleMsg msg (Cell.Epoch c)
           (MessageType_eqb (Message.Type_ (RaftMessage.Message msg)) MsgVote)]))
  else (Return (false, None), w).
Proof.
  intros Hpr. unfold isMsgStale, bind.
  rewrite getPeerReplicate_run, Hpr. simpl.
  destruct (isEpochStale _ _ && isNotNil _); reflexivity.
Qed.

Lemma isMsgStale_nil (msg : RaftMessage.t) (w : World) :
  Store.replicates (store w) !! RaftMessage.CellID msg = None ->
  isMsgStale loadCellLocalState msg w = (Panic, w).
Proof.
  intros Hpr. unfold isMsgStale, bind.
  rewrite getPeerReplicate_run, Hpr. reflexivity.
Qed.


(** C4: the claim that [isMsgStale] decides every envelope fails on the
    code.  Whenever no live replica is registered for the shard of the
    message, the call reads [peers.ps] through the nil handle and panics,
    whatever durable storage holds. *)
Theorem isMsgStale_no_replica_nil_dereference
    (msg : RaftMessage.t) (w : World) :
  Store.replicates (store w) !! RaftMessage.CellID msg = None ->
  isMsgStale loadCellLocalState msg w = (Panic, w).
Proof. apply isMsgStale_nil. Qed.

Lemma isMsgStale_store (msg : RaftMessage.t) (w : World) :
  store (snd (isMsgStale loadCellLocalState msg w)) = store w.
Proof.
  destruct (Store.replicates (store w) !! RaftMessage.CellID msg)
    as [pr|] eqn:Hpr.
  - rewrite (isMsgStale_live msg w pr Hpr). simpl.
    destruct (isEpochStale _ _ && isNotNil _); reflexivity.
  - rewrite (isMsgStale_nil msg w Hpr). reflexivity.
Qed.

Lemma isMsgStale_never_errors (msg : RaftMessage.t) (w : World) :
  returnsError (fst (isMsgStale loadCellLocalState msg w)) = false.
Proof.
  destruct (Store.replicates (store w) !! RaftMessage.CellID msg)
    as [pr|] eqn:Hpr.
  - rewrite (isMsgStale_live msg w pr Hpr). simpl.
    destruct (isEpochStale _ _ && isNotNil _); reflexivity.
  - rewrite (isMsgStale_nil msg w Hpr). reflexivity.
Qed.

(** C9: neither [isRaftMsgValid] nor [isMsgStale] changes the Key-Range
    Index or the Pending-Shard Set, whatever the call ends in. *)
Theorem validation_keeps_keyRanges_and_pendingCells
    (msg : RaftMessage.t) (w : World) :
  Store.keyRanges (store (snd (isRaftMsgValid msg w)))
    = Store.keyRanges (store w)
  /\ Store.pendingCells (store (snd (isRaftMsgValid msg w)))
    = Store.pendingCells (store w)
  /\ Store.keyRanges (store (snd (isMsgStale loadCellLocalState msg w)))
    = Store.keyRanges (store w)
  /\ Store.pendingCells (store (snd (isMsgStale loadCellLocalState msg w)))
    = Store.pendingCells (store w).
Proof.
  rewrite isMsgStale_store.
  unfold isRaftMsgValid, bind, getStoreState. simpl.
  destruct (negb _); simpl; auto.
Qed.

End MessageValidatorFacts.


Lemma isMsgStale_no_replica_nil_dereference_witness :
  Store.replicates storeEmpty !! RaftMessage.CellID (msgFrom2 MsgHeartbeat epoch_2_2)
    = None
  /\ isMsgStale loadNothing (msgFrom2 MsgHeartbeat epoch_2_2)
       (mkWorld storeEmpty [])
     = (Panic, mkWorld storeEmpty []).
Proof.
  split.
  - reflexivity.
  - apply (isMsgStale_no_replica_nil_dereference loadNothing
             (msgFrom2 MsgHeartbeat epoch_2_2) (mkWorld storeEmpty [])).
    reflexivity.
Defined.

(** C3: no live replica and no persisted record.  The claim expects "not
    stale, no error"; on every store without replicas the call panics at
    [peers.ps] before the record is looked at. *)
Theorem isMsgStale_no_record_panics
    (msg : RaftMessage.t) (id : N) (keyRanges pendingCells : list Cell.t)
    (events : list Event) :
  isMsgStale loadNothing msg
    (mkWorld (Store.mk id ∅ keyRanges pendingCells) events)
  = (Panic, mkWorld (Store.mk id ∅ keyRanges pendingCells) events).
Proof. apply isMsgStale_nil. reflexivity. Qed.

(** C5: shard 7 is tombstoned at epoch (2,2) without store 2 among its
    peers; store 2 sends a vote request, then an append response, with the
    stale epoch (1,1).  The claim expects "stale, no error" with the notify
    flag true for the vote and false for the response; the code panics at
    [peers.ps] in both cases and runs no disposition. *)
Theorem isMsgStale_tombstone_stale_panics :
  isMsgStale loadTombstone7 (msgFrom2 MsgVote epoch_1_1) (mkWorld storeEmpty [])
    = (Panic, mkWorld storeEmpty [])
  /\ isMsgStale loadTombstone7 (msgFrom2 MsgAppResp epoch_1_1)
       (mkWorld storeEmpty [])
     = (Panic, mkWorld storeEmpty []).
Proof. split; reflexivity. Qed.

(** C6: [isMsgStale] never hands an error back.  With no live replica, a
    persisted record of shard 7 that is not a tombstone, and a tombstone
    whose configuration version equals that of a message that is not stale,
    both end in the panic at [peers.ps] where the claim expects an error. *)
Theorem isMsgStale_returns_no_error :
  (forall load msg w, returnsError (fst (isMsgStale load msg w)) = false)
  /\ isMsgStale loadNormal7 (msgFrom2 MsgVote epoch_2_2) (mkWorld storeEmpty [])
     = (Panic, mkWorld storeEmpty [])
  /\ isEpochStale epoch_2_3 epoch_2_2 = false
  /\ isMsgStale loadTombstone7 (msgFrom2 MsgVote epoch_2_3)
       (mkWorld storeEmpty [])
     = (Panic, mkWorld storeEmpty []).
Proof.
  split; [apply isMsgStale_never_errors|].
  repeat split; reflexivity.
Qed.

(** ** Keys *)

Lemma Compare_antisym (a b : list byte) :
  bytes.Compare b a = - bytes.Compare a b.
Proof.
  revert b. induction a as [|x a IH]; intros [|y b]; simpl; try reflexivity.
  rewrite (N.compare_antisym (Byte.to_N x) (Byte.to_N y)).
  destruct (Byte.to_N x ?= Byte.to_N y)%N; simpl; auto.
Qed.

Lemma encStartKey_before_encEndKey (a b : Cell.t) :
  (bytes.Compare (encStartKey a) (encEndKey b) <? 0)
  = keyBefore (Cell.Start a) (Cell.End b).
Proof.
  unfold encStartKey, encEndKey, keyBefore, getDataKey.
  destruct (Cell.End b); reflexivity.
Qed.

Lemma encEndKey_after_encStartKey (a b : Cell.t) :
  (bytes.Compare (encEndKey a) (encStartKey b) >? 0)
  = keyBefore (Cell.Start b) (Cell.End a).
Proof.
  unfold encStartKey, encEndKey, keyBefore, getDataKey.
  destruct (Cell.End a) as [|e es]; [reflexivity|].
  change (bytes.Compare (dataPrefix :: e :: es) (dataPrefix :: Cell.Start b))
    with (bytes.Compare (e :: es) (Cell.Start b)).
  rewrite (Compare_antisym (Cell.Start b) (e :: es)).
  rewrite Z.gtb_ltb. destruct (bytes.Compare (Cell.Start b) (e :: es)); reflexivity.
Qed.

(** The loop condition over the pending shards is the spec's intersection
    test, minus the entries of the incoming shard itself. *)
Lemma pendingOverlaps_intersects (snapCell c : Cell.t) :
  pendingOverlaps snapCell c
  = intersects c snapCell && negb (Cell.ID c =? Cell.ID snapCell)%N.
Proof.
  unfold pendingOverlaps, intersects.
  rewrite encStartKey_before_encEndKey, encEndKey_after_encStartKey.
  reflexivity.
Qed.

Lemma intersects_sym (a b : Cell.t) : intersects a b = intersects b a.
Proof. unfold intersects. apply andb_comm. Qed.

Lemma anyPendingOverlaps_false (pending : list Cell.t) (snapCell : Cell.t) :
  anyPendingOverlaps pending snapCell = false <->
  forall c, In c pending -> pendingOverlaps snapCell c = false.
Proof.
  induction pending as [|c rest IH]; simpl.
  - split; [intros _ c [] | reflexivity].
  - destruct (pendingOverlaps snapCell c) eqn:E.
    + split; [discriminate | intros H; rewrite <- E; apply H; auto].
    + rewrite IH. split.
      * intros H d [<-|Hd]; auto.
      * intros H d Hd. apply H. auto.
Qed.

Lemma pendingCount_app (l1 l2 : list Cell.t) (cellID : N) :
  pendingCount (l1 ++ l2) cellID
  = (pendingCount l1 cellID + pendingCount l2 cellID)%nat.
Proof.
  induction l1 as [|c l1 IH]; simpl; [reflexivity|].
  destruct (Cell.ID c =? cellID)%N; simpl; rewrite IH; reflexivity.
Qed.

Lemma pendingCount_In (l : list Cell.t) (c : Cell.t) :
  In c l -> (1 <= pendingCount l (Cell.ID c))%nat.
Proof.
  induction l as [|d l IH]; simpl; [intros []|].
  intros [->|Hin].
  - rewrite N.eqb_refl. lia.
  - destruct (Cell.ID d =? Cell.ID c)%N; [lia | auto].
Qed.

(** ** The Key-Range Index *)

Lemma fold_searchStep_In (key : list byte) (l : list Cell.t)
    (best : option Cell.t) (c : Cell.t) :
  fold_left (searchStep key) l best = Some c ->
  In c l \/ best = Some c.
Proof.
  revert best. induction l as [|d l IH]; simpl; intros best H.
  - auto.
  - destruct (IH _ H) as [Hin|Hstep]; [auto|].
    unfold searchStep in Hstep.
    destruct (bytes.Compare (Cell.Start d) key <=? 0); [|auto].
    destruct best as [b|].
    + destruct (bytes.Compare (Cell.Start b) (Cell.Start d) <? 0); [|auto].
      injection Hstep as ->. auto.
    + injection Hstep as ->. auto.
Qed.

Lemma Search_In (keyRanges : list Cell.t) (key : list byte) :
  Search keyRanges key = emptyCell \/ In (Search keyRanges key) keyRanges.
Proof.
  unfold Search.
  destruct (fold_left (searchStep key) keyRanges None) as [c|] eqn:E; [|auto].
  destruct (fold_searchStep_In _ _ _ _ E) as [Hin|Hbest]; [auto|discriminate].
Qed.

(** ** Running [checkSnapshot] *)

Local Arguments bytes.Compare : simpl never.
Local Arguments encStartKey : simpl never.
Local Arguments encEndKey : simpl never.
Local Arguments Search : simpl never.
Local Arguments anyPendingOverlaps : simpl never.

Lemma checkOverlap_run (snapCell : Cell.t) (w : World) :
  checkOverlap snapCell w =
  let item := Search (Store.keyRanges (store w)) (Cell.Start snapCell) in
  if (0 <? Cell.ID item)%N then
    match Store.replicates (store w) !! Cell.ID item with
    | None => (Panic, w)
    | Some pe =>
        if bytes.Compare (encStartKey (peerStorage.cell (PeerReplicate.ps pe)))
             (encEndKey snapCell) <? 0
        then (Return (false, None), w)
        else pendingStep snapCell w
    end
  else pendingStep snapCell w.
Proof.
  unfold checkOverlap, pendingStep, admitted, bind. simpl.
  destruct (0 <? Cell.ID _)%N; simpl.
  - destruct (Store.replicates (store w) !! _) as [pe|]; simpl; [|reflexivity].
    destruct (bytes.Compare _ _ <? 0); simpl; [reflexivity|].
    destruct (anyPendingOverlaps _ _); reflexivity.
  - destruct (anyPendingOverlaps _ _); reflexivity.
Qed.

Section SnapshotAdmissionFacts.

Variable Unmarshal : list byte -> error + RaftSnapshotData.t.

Lemma checkSnapshot_run (msg : RaftMessage.t) (w : World)
    (pr : PeerReplicate.t) :
  Store.replicates (store w) !! RaftMessage.CellID msg = Some pr ->
  checkSnapshot Unmarshal msg w =
  let data := Snapshot.Data (Message.Snapshot (RaftMessage.Message msg)) in
  if isInitialized (PeerReplicate.ps pr) || (length data <=? 0)%nat then
    (Return (true, None), w)
  else
    match Unmarshal data with
    | inl err => (Return (false, Some err), w)
    | inr snapData =>
        if containsPeerID (Cell.Peers (RaftSnapshotData.Cell snapData))
             (Peer.ID (RaftMessage.ToPeer msg))
        then checkOverlap (RaftSnapshotData.Cell snapData) w
        else (Return (false, None), w)
    end.
Proof.
  intros Hpr. unfold checkSnapshot, bind.
  rewrite getPeerReplicate_run, Hpr. simpl.
  destruct (isInitialized _ || _); [reflexivity|].
  destruct (Unmarshal _) as [err|snapData]; [reflexivity|].
  destruct (containsPeerID _ _); reflexivity.
Qed.

Lemma checkSnapshot_nil (msg : RaftMessage.t) (w : World) :
  Store.replicates (store w) !! RaftMessage.CellID msg = None ->
  checkSnapshot Unmarshal msg w = (Panic, w).
Proof.
  intros Hpr. unfold checkSnapshot, bind.
  rewrite getPeerReplicate_run, Hpr. reflexivity.
Qed.

End SnapshotAdmissionFacts.

Lemma length_leb_0 {A} (l : list A) : (length l <=? 0)%nat = true <-> l = [].
Proof. destruct l; simpl; split; auto; discriminate. Qed.

Lemma length_leb_0_false {A} (l : list A) :
  (length l <=? 0)%nat = false <-> l <> [].
Proof. destruct l; simpl; split; auto; congruence. Qed.

Lemma checkOverlap_never_errors (snapCell : Cell.t) (w : World) :
  returnsError (fst (checkOverlap snapCell w)) = false.
Proof.
  rewrite checkOverlap_run. cbv zeta. unfold pendingStep.
  repeat match goal with
         | |- context [if ?c then _ else _] => destruct c
         | |- context [match ?o with Some _ => _ | None => _ end] => destruct o
         end; reflexivity.
Qed.

(** The loop over [snapCell.Peers] finds the target exactly when some listed
    peer has its id. *)
Lemma containsPeerID_iff (peers : list Peer.t) (peerID : N) :
  containsPeerID peers peerID = true <->
  exists p, In p peers /\ Peer.ID p = peerID.
Proof.
  induction peers as [|q rest IH]; simpl.
  - split; [discriminate | intros (p & [] & _)].
  - destruct (N.eqb_spec (Peer.ID q) peerID) as [E|E].
    + split; [intros _; exists q; auto | reflexivity].
    + rewrite IH. split.
      * intros (p & Hp & Hid). exists p. auto.
      * intros (p & [<-|Hp] & Hid); [contradiction | exists p; auto].
Qed.

(** ** Snapshot admission: errors and the early exits *)

(** C8: for an envelope whose replica is registered, [checkSnapshot] hands
    an error back exactly when the replica's storage is uninitialized, the
    payload is not empty and the payload fails to decode.  With initialized
    storage or an empty payload the snapshot is accepted at once, whatever
    the decoder would answer.  A decoded descriptor none of whose peers has
    the id of the target peer is rejected silently, without an error and
    with the store unchanged. *)
Theorem checkSnapshot_error_iff_decode_failure
    (Unmarshal : list byte -> error + RaftSnapshotData.t)
    (msg : RaftMessage.t) (w : World) (pr : PeerReplicate.t) :
  Store.replicates (store w) !! RaftMessage.CellID msg = Some pr ->
  let data := Snapshot.Data (Message.Snapshot (RaftMessage.Message msg)) in
  (returnsError (fst (checkSnapshot Unmarshal msg w)) = true <->
   isInitialized (PeerReplicate.ps pr) = false
   /\ data <> []
   /\ exists err, Unmarshal data = inl err)
  /\ (forall err,
        isInitialized (PeerReplicate.ps pr) = false -> data <> [] ->
        Unmarshal data = inl err ->
        checkSnapshot Unmarshal msg w = (Return (false, Some err), w))
  /\ (isInitialized (PeerReplicate.ps pr) = true \/ data = [] ->
      forall decoder, checkSnapshot decoder msg w = (Return (true, None), w))
  /\ (forall snapData,
        isInitialized (PeerReplicate.ps pr) = false -> data <> [] ->
        Unmarshal data = inr snapData ->
        (forall p, In p (Cell.Peers (RaftSnapshotData.Cell snapData)) ->
                   Peer.ID p <> Peer.ID (RaftMessage.ToPeer msg)) ->
        checkSnapshot Unmarshal msg w = (Return (false, None), w)).
Proof.
  intros Hpr data.
  split; [split|split; [|split]].
  - rewrite (checkSnapshot_run Unmarshal msg w pr Hpr). cbv zeta. fold data.
    destruct (isInitialized (PeerReplicate.ps pr)); [discriminate|].
    simpl. destruct (length data <=? 0)%nat eqn:E; [discriminate|].
    intros H. split; [reflexivity|]. split; [apply length_leb_0_false; exact E|].
    destruct (Unmarshal data) as [err|snapData]; [eauto|].
    destruct (containsPeerID _ _); [|discriminate].
    rewrite checkOverlap_never_errors in H. discriminate.
  - intros (Hinit & Hdata & err & Herr).
    rewrite (checkSnapshot_run Unmarshal msg w pr Hpr). cbv zeta. fold data.
    rewrite Hinit, Herr. simpl.
    destruct (length data <=? 0)%nat eqn:E; [|reflexivity].
    apply length_leb_0 in E. contradiction.
  - intros err Hinit Hdata Herr.
    rewrite (checkSnapshot_run Unmarshal msg w pr Hpr). cbv zeta. fold data.
    rewrite Hinit, Herr. simpl.
    destruct (length data <=? 0)%nat eqn:E; [|reflexivity].
    apply length_leb_0 in E. contradiction.
  - intros Hfast decoder.
    rewrite (checkSnapshot_run decoder msg w pr Hpr). cbv zeta. fold data.
    destruct Hfast as [-> | ->]; [reflexivity|].
    rewrite orb_true_r. reflexivity.
  - intros snapData Hinit Hdata Hdec Habsent.
    assert (Hfound : containsPeerID
                       (Cell.Peers (RaftSnapshotData.Cell snapData))
                       (Peer.ID (RaftMessage.ToPeer msg)) = false).
    { destruct (containsPeerID _ _) eqn:E; [|reflexivity].
      apply containsPeerID_iff in E as (p & Hp & Hid).
      exfalso. exact (Habsent p Hp Hid). }
    rewrite (checkSnapshot_run Unmarshal msg w pr Hpr). cbv zeta. fold data.
    rewrite Hinit, Hdec, Hfound. simpl.
    destruct (length data <=? 0)%nat eqn:E; [|reflexivity].
    apply length_leb_0 in E. contradiction.
Qed.

Lemma checkSnapshot_error_iff_decode_failure_witness :
  Store.replicates storePending1 !! RaftMessage.CellID (snapMsg "garbage")
    = Some (freshReplica 1%N)
  /\ returnsError
       (fst (checkSnapshot misdirectedUnmarshal (snapMsg "garbage")
               (mkWorld storePending1 []))) = true
  /\ (forall p, In p (Cell.Peers cell1_without_target) ->
                Peer.ID p
                <> Peer.ID (RaftMessage.ToPeer
                              (snapMsg "snapshot of shard 1 for other peers")))
  /\ checkSnapshot misdirectedUnmarshal
       (snapMsg "snapshot of shard 1 for other peers")
       (mkWorld storePending1 [])
     = (Return (false, None), mkWorld storePending1 [])
  /\ checkSnapshot misdirectedUnmarshal (snapMsg "")
       (mkWorld storePending1 [])
     = (Return (true, None), mkWorld storePending1 []).
Proof.
  assert (Habsent :
            forall p, In p (Cell.Peers cell1_without_target) ->
                      Peer.ID p
                      <> Peer.ID (RaftMessage.ToPeer
                                    (snapMsg
                                       "snapshot of shard 1 for other peers"))).
  { simpl. intros p [<-|[<-|[]]]; discriminate. }
  split; [reflexivity|]. split; [|split; [exact Habsent|split]].
  - apply (checkSnapshot_error_iff_decode_failure misdirectedUnmarshal
             (snapMsg "garbage") (mkWorld storePending1 [])
             (freshReplica 1%N)).
    + reflexivity.
    + split; [reflexivity|]. split; [discriminate|].
      eexists. reflexivity.
  - destruct (checkSnapshot_error_iff_decode_failure misdirectedUnmarshal
                (snapMsg "snapshot of shard 1 for other peers")
                (mkWorld storePending1 []) (freshReplica 1%N))
      as (_ & _ & _ & Hmember); [reflexivity|].
    apply (Hmember (RaftSnapshotData.mk cell1_without_target)).
    + reflexivity.
    + discriminate.
    + reflexivity.
    + exact Habsent.
  - destruct (checkSnapshot_error_iff_decode_failure misdirectedUnmarshal
                (snapMsg "") (mkWorld storePending1 []) (freshReplica 1%N))
      as (_ & _ & Hfast & _); [reflexivity|].
    apply Hfast. right. reflexivity.
Defined.

(** ** Snapshot admission: the nil replica handle *)

(** C10, as stated, fails: with no replica registered for the shard of the
    envelope, [pr.getStore()] reads through the nil handle and the call
    panics. *)
Lemma checkSnapshot_unregistered_shard_panics :
  Store.replicates storeEmpty
    !! RaftMessage.CellID (snapMsg "snapshot of shard 1") = None
  /\ checkSnapshot scenarioUnmarshal (snapMsg "snapshot of shard 1")
       (mkWorld storeEmpty [])
     = (Panic, mkWorld storeEmpty []).
Proof. split; reflexivity. Qed.

(** The second use of a replica handle, on the shard the Key-Range Index
    finds, panics in the same way when that shard has no replica. *)
Example checkSnapshot_unregistered_live_shard_panics :
  checkSnapshot scenarioUnmarshal (snapMsg "snapshot of shard 1 at 20-30")
    (mkWorld storeIndexOnly2 [])
  = (Panic, mkWorld storeIndexOnly2 []).
Proof. reflexivity. Qed.

Lemma indexRegistered_Search (s : Store.t) (key : list byte) :
  indexRegistered s = true ->
  (0 <? Cell.ID (Search (Store.keyRanges s) key))%N = true ->
  exists pe, Store.replicates s !! Cell.ID (Search (Store.keyRanges s) key)
             = Some pe.
Proof.
  intros Hreg Hid.
  destruct (Search_In (Store.keyRanges s) key) as [E|Hin].
  - rewrite E in Hid. discriminate.
  - unfold indexRegistered in Hreg. rewrite forallb_forall in Hreg.
    specialize (Hreg _ Hin).
    destruct (Store.replicates s !! _) as [pe|]; [eauto|discriminate].
Qed.

(** C10, amended: [checkSnapshot] reaches a decision, without a panic, for
    every envelope whose shard has a replica registered in the store,
    provided every shard of the Key-Range Index has a registered replica
    too. *)
Theorem checkSnapshot_decides_when_registered
    (Unmarshal : list byte -> error + RaftSnapshotData.t)
    (msg : RaftMessage.t) (w : World) :
  isNotNil (Store.replicates (store w) !! RaftMessage.CellID msg) = true ->
  indexRegistered (store w) = true ->
  exists r w', checkSnapshot Unmarshal msg w = (Return r, w').
Proof.
  intros Hpr Hreg.
  destruct (Store.replicates (store w) !! RaftMessage.CellID msg)
    as [pr|] eqn:E; [|discriminate].
  rewrite (checkSnapshot_run Unmarshal msg w pr E). cbv zeta.
  destruct (isInitialized _ || _); [eauto|].
  destruct (Unmarshal _) as [err|snapData]; [eauto|].
  destruct (containsPeerID _ _); [|eauto].
  rewrite checkOverlap_run. cbv zeta. unfold pendingStep.
  destruct (0 <? Cell.ID _)%N eqn:Hid.
  - destruct (indexRegistered_Search _ _ Hreg Hid) as [pe ->].
    destruct (bytes.Compare _ _ <? 0); [eauto|].
    destruct (anyPendingOverlaps _ _); eauto.
  - destruct (anyPendingOverlaps _ _); eauto.
Qed.

Lemma checkSnapshot_decides_when_registered_witness :
  isNotNil (Store.replicates storeLive2
              !! RaftMessage.CellID (snapMsg "snapshot of shard 1 at 20-30"))
    = true
  /\ indexRegistered storeLive2 = true
  /\ exists r w',
       checkSnapshot scenarioUnmarshal (snapMsg "snapshot of shard 1 at 20-30")
         (mkWorld storeLive2 []) = (Return r, w').
Proof.
  split; [reflexivity|]. split; [reflexivity|].
  apply (checkSnapshot_decides_when_registered scenarioUnmarshal
           (snapMsg "snapshot of shard 1 at 20-30") (mkWorld storeLive2 []));
    reflexivity.
Defined.

(** ** Snapshot admission: the pending shards *)

(** C2, as stated, fails: the refreshed snapshot of shard 1 is accepted
    while shard 1 is pending, but the earlier pending entry stays, and two
    entries of shard 1 are pending afterwards. *)
Lemma checkSnapshot_same_shard_keeps_prior_entry :
  checkSnapshot scenarioUnmarshal (snapMsg "refreshed snapshot of shard 1")
    (mkWorld storePending1 [])
  = (Return (true, None),
     mkWorld
       (Store.mk 1%N {[ 1%N := freshReplica 1%N ]} []
          [cell1_10_20; cell1_10_20_refreshed])
       [])
  /\ pendingCount [cell1_10_20; cell1_10_20_refreshed] 1%N = 2%nat.
Proof. split; reflexivity. Qed.

Lemma reaches_overlap_checks
    (Unmarshal : list byte -> error + RaftSnapshotData.t)
    (msg : RaftMessage.t) (w : World) (pr : PeerReplicate.t)
    (snapData : RaftSnapshotData.t) :
  Store.replicates (store w) !! RaftMessage.CellID msg = Some pr ->
  isInitialized (PeerReplicate.ps pr) = false ->
  Snapshot.Data (Message.Snapshot (RaftMessage.Message msg)) <> [] ->
  Unmarshal (Snapshot.Data (Message.Snapshot (RaftMessage.Message msg)))
    = inr snapData ->
  containsPeerID (Cell.Peers (RaftSnapshotData.Cell snapData))
    (Peer.ID (RaftMessage.ToPeer msg)) = true ->
  checkSnapshot Unmarshal msg w
  = checkOverlap (RaftSnapshotData.Cell snapData) w.
Proof.
  intros Hpr Hinit Hdata Hdec Hfound.
  rewrite (checkSnapshot_run Unmarshal msg w pr Hpr). cbv zeta.
  apply length_leb_0_false in Hdata.
  rewrite Hinit, Hdata, Hdec, Hfound. reflexivity.
Qed.

Lemma passesLiveCheck_run (snapCell : Cell.t) (w : World) :
  passesLiveCheck (store w) snapCell = true ->
  checkOverlap snapCell w = pendingStep snapCell w.
Proof.
  unfold passesLiveCheck. rewrite checkOverlap_run. cbv zeta.
  destruct (0 <? Cell.ID _)%N; [|reflexivity].
  destruct (Store.replicates (store w) !! _) as [pe|]; [|discriminate].
  destruct (bytes.Compare _ _ <? 0); [discriminate|reflexivity].
Qed.

(** C2, amended: a snapshot that reaches the overlap checks, passes the
    live-shard check and intersects no pending entry of another shard is
    accepted although an entry of its own shard is pending; the incoming
    descriptor is appended to the Pending-Shard Set and the prior entry is
    kept, so at least two entries of that shard are pending afterwards. *)
Theorem checkSnapshot_same_shard_appends
    (Unmarshal : list byte -> error + RaftSnapshotData.t)
    (msg : RaftMessage.t) (w : World) (pr : PeerReplicate.t)
    (snapData : RaftSnapshotData.t) (prior : Cell.t) :
  let snapCell := RaftSnapshotData.Cell snapData in
  Store.replicates (store w) !! RaftMessage.CellID msg = Some pr ->
  isInitialized (PeerReplicate.ps pr) = false ->
  Snapshot.Data (Message.Snapshot (RaftMessage.Message msg)) <> [] ->
  Unmarshal (Snapshot.Data (Message.Snapshot (RaftMessage.Message msg)))
    = inr snapData ->
  containsPeerID (Cell.Peers snapCell) (Peer.ID (RaftMessage.ToPeer msg))
    = true ->
  passesLiveCheck (store w) snapCell = true ->
  In prior (Store.pendingCells (store w)) ->
  Cell.ID prior = Cell.ID snapCell ->
  (forall c, In c (Store.pendingCells (store w)) ->
             Cell.ID c <> Cell.ID snapCell -> intersects c snapCell = false) ->
  checkSnapshot Unmarshal msg w = (Return (true, None), admitted w snapCell)
  /\ Store.pendingCells (store (admitted w snapCell))
     = Store.pendingCells (store w) ++ [snapCell]
  /\ In prior (Store.pendingCells (store (admitted w snapCell)))
  /\ (2 <= pendingCount (Store.pendingCells (store (admitted w snapCell)))
            (Cell.ID snapCell))%nat.
Proof.
  intros snapCell Hpr Hinit Hdata Hdec Hfound Hlive Hprior Hid Hothers.
  split; [|split; [reflexivity|split]].
  - rewrite (reaches_overlap_checks Unmarshal msg w pr snapData
               Hpr Hinit Hdata Hdec Hfound).
    fold snapCell. rewrite (passesLiveCheck_run snapCell w Hlive).
    unfold pendingStep.
    assert (Hnone : anyPendingOverlaps (Store.pendingCells (store w)) snapCell
                    = false).
    { apply anyPendingOverlaps_false. intros c Hc.
      rewrite pendingOverlaps_intersects.
      destruct (N.eqb_spec (Cell.ID c) (Cell.ID snapCell)) as [E|E].
      - apply andb_false_r.
      - rewrite (Hothers c Hc E). reflexivity. }
    rewrite Hnone. reflexivity.
  - simpl. apply in_or_app. auto.
  - simpl. rewrite pendingCount_app. simpl. rewrite N.eqb_refl.
    pose proof (pendingCount_In _ _ Hprior) as Hone. rewrite Hid in Hone. lia.
Qed.

Lemma checkSnapshot_same_shard_appends_witness :
  checkSnapshot scenarioUnmarshal (snapMsg "refreshed snapshot of shard 1")
    (mkWorld storePending1 [])
  = (Return (true, None),
     admitted (mkWorld storePending1 []) cell1_10_20_refreshed)
  /\ Store.pendingCells
       (store (admitted (mkWorld storePending1 []) cell1_10_20_refreshed))
     = Store.pendingCells storePending1 ++ [cell1_10_20_refreshed]
  /\ In cell1_10_20
       (Store.pendingCells
          (store (admitted (mkWorld storePending1 []) cell1_10_20_refreshed)))
  /\ (2 <= pendingCount
            (Store.pendingCells
               (store (admitted (mkWorld storePending1 [])
                         cell1_10_20_refreshed)))
            (Cell.ID cell1_10_20_refreshed))%nat.
Proof.
  apply (checkSnapshot_same_shard_appends scenarioUnmarshal
           (snapMsg "refreshed snapshot of shard 1") (mkWorld storePending1 [])
           (freshReplica 1%N) (RaftSnapshotData.mk cell1_10_20_refreshed)
           cell1_10_20).
  - reflexivity.
  - reflexivity.
  - discriminate.
  - reflexivity.
  - reflexivity.
  - reflexivity.
  - simpl. left. reflexivity.
  - reflexivity.
  - simpl. intros c [<-|[]] Hne. exfalso. apply Hne. reflexivity.
Defined.

(** ** Snapshot admission: the live shards *)

(** C1, as stated, fails in both directions.  The snapshot of shard 1 for
    [10,20) reaches the overlap checks while the live shard 2 owns [15,25):
    the ranges intersect, the search for the greatest live start key not
    above "10" finds nothing, and the snapshot is accepted.  And with no live
    shard at all, the same snapshot is rejected silently because the pending
    shard 2 intersects it. *)
Lemma checkSnapshot_silent_reject_not_iff_live_intersection :
  (In cell2_15_25 (Store.keyRanges storeLive2)
   /\ intersects cell2_15_25 cell1_10_20 = true
   /\ Search (Store.keyRanges storeLive2) (Cell.Start cell1_10_20) = emptyCell
   /\ checkSnapshot scenarioUnmarshal (snapMsg "snapshot of shard 1")
        (mkWorld storeLive2 [])
      = (Return (true, None), admitted (mkWorld storeLive2 []) cell1_10_20))
  /\ (Store.keyRanges storePending2 = []
      /\ checkSnapshot scenarioUnmarshal (snapMsg "snapshot of shard 1")
           (mkWorld storePending2 [])
         = (Return (false, None), mkWorld storePending2 [])).
Proof. repeat split; try reflexivity. simpl. auto. Qed.

(** C1, amended: for an envelope that reaches the live-shard overlap step,
    if the Key-Range Index search for the incoming start key finds a live
    shard and the range of that shard's replica intersects the incoming
    range under the spec's test, [checkSnapshot] rejects silently and leaves
    the store as it was. *)
Theorem checkSnapshot_found_live_intersection_rejects
    (Unmarshal : list byte -> error + RaftSnapshotData.t)
    (msg : RaftMessage.t) (w : World) (pr pe : PeerReplicate.t)
    (snapData : RaftSnapshotData.t) :
  let snapCell := RaftSnapshotData.Cell snapData in
  let item := Search (Store.keyRanges (store w)) (Cell.Start snapCell) in
  Store.replicates (store w) !! RaftMessage.CellID msg = Some pr ->
  isInitialized (PeerReplicate.ps pr) = false ->
  Snapshot.Data (Message.Snapshot (RaftMessage.Message msg)) <> [] ->
  Unmarshal (Snapshot.Data (Message.Snapshot (RaftMessage.Message msg)))
    = inr snapData ->
  containsPeerID (Cell.Peers snapCell) (Peer.ID (RaftMessage.ToPeer msg))
    = true ->
  (0 <? Cell.ID item)%N = true ->
  Store.replicates (store w) !! Cell.ID item = Some pe ->
  intersects (peerStorage.cell (PeerReplicate.ps pe)) snapCell = true ->
  checkSnapshot Unmarshal msg w = (Return (false, None), w).
Proof.
  intros snapCell item Hpr Hinit Hdata Hdec Hfound Hid Hpe Hint.
  rewrite (reaches_overlap_checks Unmarshal msg w pr snapData
             Hpr Hinit Hdata Hdec Hfound).
  fold snapCell. rewrite checkOverlap_run. cbv zeta. fold item.
  rewrite Hid, Hpe, encStartKey_before_encEndKey.
  unfold intersects in Hint. apply andb_true_iff in Hint as [-> _].
  reflexivity.
Qed.

Lemma checkSnapshot_found_live_intersection_rejects_witness :
  intersects cell2_15_25 cell1_20_30 = true
  /\ checkSnapshot scenarioUnmarshal (snapMsg "snapshot of shard 1 at 20-30")
       (mkWorld storeLive2 [])
     = (Return (false, None), mkWorld storeLive2 []).
Proof.
  split; [reflexivity|].
  apply (checkSnapshot_found_live_intersection_rejects scenarioUnmarshal
           (snapMsg "snapshot of shard 1 at 20-30") (mkWorld storeLive2 [])
           (freshReplica 1%N) (liveReplica cell2_15_25)
           (RaftSnapshotData.mk cell1_20_30)).
  - reflexivity.
  - reflexivity.
  - discriminate.
  - reflexivity.
  - reflexivity.
  - reflexivity.
  - reflexivity.
  - reflexivity.
Defined.

(** * Further properties of the admission and of [inPending] *)

Lemma anyPendingOverlaps_cons (c : Cell.t) (l : list Cell.t) (s : Cell.t) :
  anyPendingOverlaps (c :: l) s
  = if pendingOverlaps s c then true else anyPendingOverlaps l s.
Proof. reflexivity. Qed.

Lemma anyPendingOverlaps_true (l : list Cell.t) (s : Cell.t) :
  anyPendingOverlaps l s = true <->
  exists c, In c l /\ pendingOverlaps s c = true.
Proof.
  induction l as [|c l IH].
  - split; [discriminate | intros (c & [] & _)].
  - rewrite anyPendingOverlaps_cons.
    destruct (pendingOverlaps s c) eqn:E.
    + split; [intros _; exists c; simpl; auto | reflexivity].
    + rewrite IH. split.
      * intros (d & Hd & Ho). exists d. simpl. auto.
      * intros (d & [<-|Hd] & Ho); [congruence | exists d; auto].
Qed.

Lemma anyPendingOverlaps_app (l1 l2 : list Cell.t) (s : Cell.t) :
  anyPendingOverlaps (l1 ++ l2) s
  = anyPendingOverlaps l1 s || anyPendingOverlaps l2 s.
Proof.
  induction l1 as [|c l1 IH]; [reflexivity|].
  rewrite <- app_comm_cons, !anyPendingOverlaps_cons, IH.
  destruct (pendingOverlaps s c); reflexivity.
Qed.

Lemma pendingOverlaps_self (s : Cell.t) : pendingOverlaps s s = false.
Proof.
  unfold pendingOverlaps. rewrite N.eqb_refl. apply andb_false_r.
Qed.

Lemma pendingOverlaps_compatible (s c : Cell.t) :
  pendingOverlaps s c = negb (compatible c s).
Proof.
  rewrite pendingOverlaps_intersects. unfold compatible.
  destruct (Cell.ID c =? Cell.ID s)%N, (intersects c s); reflexivity.
Qed.

Lemma compatible_sym (c d : Cell.t) : compatible c d = compatible d c.
Proof.
  unfold compatible. rewrite (N.eqb_sym (Cell.ID c)), (intersects_sym c d).
  reflexivity.
Qed.

Lemma compatible_refl (c : Cell.t) : compatible c c = true.
Proof. unfold compatible. rewrite N.eqb_refl. reflexivity. Qed.

Lemma pendingDisjoint_spec (l : list Cell.t) :
  pendingDisjoint l = true <->
  forall c d, In c l -> In d l -> compatible c d = true.
Proof.
  unfold pendingDisjoint. rewrite forallb_forall. split.
  - intros H c d Hc Hd. specialize (H c Hc). rewrite forallb_forall in H. auto.
  - intros H c Hc. rewrite forallb_forall. auto.
Qed.

Lemma inPendingList_iff (l : list Cell.t) (cell : Cell.t) :
  inPendingList l cell = true <->
  exists c, In c l /\ Cell.ID c = Cell.ID cell.
Proof.
  induction l as [|d l IH]; simpl.
  - split; [discriminate | intros (c & [] & _)].
  - destruct (N.eqb_spec (Cell.ID d) (Cell.ID cell)) as [E|E].
    + split; [intros _; exists d; auto | reflexivity].
    + rewrite IH. split.
      * intros (c & Hc & Hid). exists c. auto.
      * intros (c & [<-|Hc] & Hid); [contradiction | exists c; auto].
Qed.

Lemma inPending_run (cell : Cell.t) (w : World) :
  inPending cell w
  = (Return (inPendingList (Store.pendingCells (store w)) cell), w).
Proof. reflexivity. Qed.

(** What an accepting call did, when the fast accept was not taken. *)
Lemma checkSnapshot_accept_admitted
    (Unmarshal : list byte -> error + RaftSnapshotData.t)
    (msg : RaftMessage.t) (w : World) (pr : PeerReplicate.t) :
  Store.replicates (store w) !! RaftMessage.CellID msg = Some pr ->
  isInitialized (PeerReplicate.ps pr) = false ->
  Snapshot.Data (Message.Snapshot (RaftMessage.Message msg)) <> [] ->
  fst (checkSnapshot Unmarshal msg w) = Return (true, None) ->
  exists snapData,
    Unmarshal (Snapshot.Data (Message.Snapshot (RaftMessage.Message msg)))
      = inr snapData
    /\ containsPeerID (Cell.Peers (RaftSnapshotData.Cell snapData))
         (Peer.ID (RaftMessage.ToPeer msg)) = true
    /\ passesLiveCheck (store w) (RaftSnapshotData.Cell snapData) = true
    /\ anyPendingOverlaps (Store.pendingCells (store w))
         (RaftSnapshotData.Cell snapData) = false
    /\ checkSnapshot Unmarshal msg w
       = (Return (true, None), admitted w (RaftSnapshotData.Cell snapData)).
Proof.
  intros Hpr Hinit Hdata. apply length_leb_0_false in Hdata.
  rewrite (checkSnapshot_run Unmarshal msg w pr Hpr). cbv zeta.
  rewrite Hinit, Hdata. simpl.
  destruct (Unmarshal _) as [err|snapData]; [discriminate|].
  destruct (containsPeerID _ _) eqn:Hfound; [|discriminate].
  intros Hacc. exists snapData. revert Hacc.
  rewrite checkOverlap_run. cbv zeta. unfold passesLiveCheck, pendingStep.
  clear Hpr Hinit Hdata.
  destruct (0 <? Cell.ID _)%N.
  - destruct (Store.replicates (store w) !! Cell.ID (Search _ _)) as [pe|];
      [|simpl; discriminate].
    destruct (bytes.Compare _ _ <? 0); [simpl; discriminate|].
    destruct (anyPendingOverlaps _ _) eqn:E; [simpl; discriminate|].
    intros _. repeat split. exact Hfound.
  - destruct (anyPendingOverlaps _ _) eqn:E; [simpl; discriminate|].
    intros _. repeat split. exact Hfound.
Qed.

(** Every call either leaves the world as it was or admits the decoded
    descriptor. *)
Lemma checkSnapshot_cases
    (Unmarshal : list byte -> error + RaftSnapshotData.t)
    (msg : RaftMessage.t) (w : World) :
  snd (checkSnapshot Unmarshal msg w) = w
  \/ exists snapData,
       Unmarshal (Snapshot.Data (Message.Snapshot (RaftMessage.Message msg)))
         = inr snapData
       /\ anyPendingOverlaps (Store.pendingCells (store w))
            (RaftSnapshotData.Cell snapData) = false
       /\ checkSnapshot Unmarshal msg w
          = (Return (true, None), admitted w (RaftSnapshotData.Cell snapData)).
Proof.
  destruct (Store.replicates (store w) !! RaftMessage.CellID msg)
    as [pr|] eqn:Hpr.
  - rewrite (checkSnapshot_run Unmarshal msg w pr Hpr). cbv zeta.
    destruct (isInitialized _ || _); [auto|].
    destruct (Unmarshal _) as [err|snapData]; [auto|].
    destruct (containsPeerID _ _); [|auto].
    rewrite checkOverlap_run. cbv zeta. unfold pendingStep.
    destruct (0 <? Cell.ID _)%N.
    + destruct (Store.replicates (store w) !! Cell.ID (Search _ _)) as [pe|];
        [|auto].
      destruct (bytes.Compare _ _ <? 0); [auto|].
      destruct (anyPendingOverlaps _ _) eqn:E; [auto|]. right. exists snapData. auto.
    + destruct (anyPendingOverlaps _ _) eqn:E; [auto|]. right. exists snapData. auto.
  - rewrite (checkSnapshot_nil Unmarshal msg w Hpr). auto.
Qed.

(** ** [inPending] *)

(** X1: [inPending] never panics and leaves the world as it was; it answers
    true exactly when some pending entry carries the shard id of the given
    descriptor, whatever the other fields of either descriptor are. *)
Theorem inPending_decides_by_shard_id (cell : Cell.t) (w : World) :
  exists b,
    inPending cell w = (Return b, w)
    /\ (b = true <->
        exists c, In c (Store.pendingCells (store w))
                  /\ Cell.ID c = Cell.ID cell).
Proof.
  exists (inPendingList (Store.pendingCells (store w)) cell).
  split; [apply inPending_run | apply inPendingList_iff].
Qed.

(** ** What [checkSnapshot] changes *)

(** X2: whatever a call of [checkSnapshot] ends in, it leaves the node id,
    the replica registry, the Key-Range Index and the stale-message
    dispositions untouched.  The Pending-Shard Set changes only when the call
    accepts, and then by exactly the decoded descriptor appended at its end;
    a rejection, an error and a panic leave the whole world as it was. *)
Theorem checkSnapshot_only_appends_to_pendingCells
    (Unmarshal : list byte -> error + RaftSnapshotData.t)
    (msg : RaftMessage.t) (w : World) :
  Store.id (store (snd (checkSnapshot Unmarshal msg w))) = Store.id (store w)
  /\ Store.replicates (store (snd (checkSnapshot Unmarshal msg w)))
     = Store.replicates (store w)
  /\ Store.keyRanges (store (snd (checkSnapshot Unmarshal msg w)))
     = Store.keyRanges (store w)
  /\ trace (snd (checkSnapshot Unmarshal msg w)) = trace w
  /\ (snd (checkSnapshot Unmarshal msg w) = w
      \/ (fst (checkSnapshot Unmarshal msg w) = Return (true, None)
          /\ exists snapData,
               Unmarshal
                 (Snapshot.Data (Message.Snapshot (RaftMessage.Message msg)))
               = inr snapData
               /\ Store.pendingCells
                    (store (snd (checkSnapshot Unmarshal msg w)))
                  = Store.pendingCells (store w)
                    ++ [RaftSnapshotData.Cell snapData])).
Proof.
  destruct (checkSnapshot_cases Unmarshal msg w)
    as [-> | (snapData & Hdec & _ & ->)].
  - repeat split; auto.
  - simpl. repeat split. right. split; [reflexivity|].
    exists snapData. auto.
Qed.

(** X3: the Pending-Shard Set never loses an entry to [checkSnapshot]: a
    descriptor for which [inPending] answers true before a call still gets
    that answer after it. *)
Theorem checkSnapshot_keeps_inPending
    (Unmarshal : list byte -> error + RaftSnapshotData.t)
    (msg : RaftMessage.t) (w : World) (cell : Cell.t) :
  inPending cell w = (Return true, w) ->
  inPending cell (snd (checkSnapshot Unmarshal msg w))
  = (Return true, snd (checkSnapshot Unmarshal msg w)).
Proof.
  rewrite !inPending_run. intros H. injection H as H.
  destruct (checkSnapshot_cases Unmarshal msg w)
    as [-> | (snapData & _ & _ & ->)].
  - rewrite H. reflexivity.
  - simpl. f_equal. f_equal. apply inPendingList_iff.
    apply inPendingList_iff in H as (c & Hc & Hid).
    exists c. split; [apply in_or_app; auto | exact Hid].
Qed.

Lemma checkSnapshot_keeps_inPending_witness :
  inPending cell1_10_20 (mkWorld storePending1 [])
    = (Return true, mkWorld storePending1 [])
  /\ inPending cell1_10_20
       (snd (checkSnapshot scenarioUnmarshal
               (snapMsg "refreshed snapshot of shard 1")
               (mkWorld storePending1 [])))
     = (Return true,
        snd (checkSnapshot scenarioUnmarshal
               (snapMsg "refreshed snapshot of shard 1")
               (mkWorld storePending1 []))).
Proof.
  split; [reflexivity|].
  apply (checkSnapshot_keeps_inPending scenarioUnmarshal
           (snapMsg "refreshed snapshot of shard 1")
           (mkWorld storePending1 []) cell1_10_20).
  reflexivity.
Defined.

(** X4: a snapshot that [checkSnapshot] accepts for a replica with
    uninitialized storage and a non-empty payload is registered: right
    after the call [inPending] answers true for the decoded descriptor. *)
Theorem checkSnapshot_accepted_is_inPending
    (Unmarshal : list byte -> error + RaftSnapshotData.t)
    (msg : RaftMessage.t) (w : World) (pr : PeerReplicate.t)
    (snapData : RaftSnapshotData.t) :
  Store.replicates (store w) !! RaftMessage.CellID msg = Some pr ->
  isInitialized (PeerReplicate.ps pr) = false ->
  Snapshot.Data (Message.Snapshot (RaftMessage.Message msg)) <> [] ->
  Unmarshal (Snapshot.Data (Message.Snapshot (RaftMessage.Message msg)))
    = inr snapData ->
  fst (checkSnapshot Unmarshal msg w) = Return (true, None) ->
  inPending (RaftSnapshotData.Cell snapData)
    (snd (checkSnapshot Unmarshal msg w))
  = (Return true, snd (checkSnapshot Unmarshal msg w)).
Proof.
  intros Hpr Hinit Hdata Hdec Hacc.
  destruct (checkSnapshot_accept_admitted Unmarshal msg w pr
              Hpr Hinit Hdata Hacc) as (sd & Hdec' & _ & _ & _ & ->).
  rewrite Hdec in Hdec'. injection Hdec' as <-.
  rewrite inPending_run. simpl. f_equal. f_equal.
  apply inPendingList_iff. exists (RaftSnapshotData.Cell snapData).
  split; [apply in_or_app; simpl; auto | reflexivity].
Qed.

Lemma checkSnapshot_accepted_is_inPending_witness :
  fst (checkSnapshot twoShardUnmarshal (snapMsgFor 1%N "snapshot of shard 1")
         (mkWorld storeFresh12 []))
    = Return (true, None)
  /\ inPending cell1_10_20
       (snd (checkSnapshot twoShardUnmarshal
               (snapMsgFor 1%N "snapshot of shard 1")
               (mkWorld storeFresh12 [])))
     = (Return true,
        snd (checkSnapshot twoShardUnmarshal
               (snapMsgFor 1%N "snapshot of shard 1")
               (mkWorld storeFresh12 []))).
Proof.
  split; [reflexivity|].
  apply (checkSnapshot_accepted_is_inPending twoShardUnmarshal
           (snapMsgFor 1%N "snapshot of shard 1") (mkWorld storeFresh12 [])
           (freshReplica 1%N) (RaftSnapshotData.mk cell1_10_20)).
  - reflexivity.
  - reflexivity.
  - discriminate.
  - reflexivity.
  - reflexivity.
Defined.

(** ** The scan of the pending shards *)

(** X5: for a snapshot that reaches the overlap checks and passes the
    live-shard check, [checkSnapshot] rejects silently, with the world
    unchanged, exactly when some pending entry of another shard intersects
    the incoming range. *)
Theorem checkSnapshot_pending_rejection_iff
    (Unmarshal : list byte -> error + RaftSnapshotData.t)
    (msg : RaftMessage.t) (w : World) (pr : PeerReplicate.t)
    (snapData : RaftSnapshotData.t) :
  let snapCell := RaftSnapshotData.Cell snapData in
  Store.replicates (store w) !! RaftMessage.CellID msg = Some pr ->
  isInitialized (PeerReplicate.ps pr) = false ->
  Snapshot.Data (Message.Snapshot (RaftMessage.Message msg)) <> [] ->
  Unmarshal (Snapshot.Data (Message.Snapshot (RaftMessage.Message msg)))
    = inr snapData ->
  containsPeerID (Cell.Peers snapCell) (Peer.ID (RaftMessage.ToPeer msg))
    = true ->
  passesLiveCheck (store w) snapCell = true ->
  (checkSnapshot Unmarshal msg w = (Return (false, None), w) <->
   exists c, In c (Store.pendingCells (store w))
             /\ Cell.ID c <> Cell.ID snapCell
             /\ intersects c snapCell = true).
Proof.
  intros snapCell Hpr Hinit Hdata Hdec Hfound Hlive.
  rewrite (reaches_overlap_checks Unmarshal msg w pr snapData
             Hpr Hinit Hdata Hdec Hfound).
  fold snapCell. rewrite (passesLiveCheck_run snapCell w Hlive).
  unfold pendingStep.
  destruct (anyPendingOverlaps (Store.pendingCells (store w)) snapCell) eqn:E.
  - split; [intros _|reflexivity].
    apply anyPendingOverlaps_true in E as (c & Hc & Ho).
    rewrite pendingOverlaps_intersects in Ho.
    apply andb_true_iff in Ho as [Hint Hid].
    exists c. split; [exact Hc|]. split; [|exact Hint].
    intros Heq. rewrite Heq, N.eqb_refl in Hid. discriminate.
  - split; [discriminate|].
    intros (c & Hc & Hid & Hint).
    pose proof (proj1 (anyPendingOverlaps_false _ _) E c Hc) as Ho.
    rewrite pendingOverlaps_intersects, Hint in Ho.
    apply N.eqb_neq in Hid. rewrite Hid in Ho. discriminate.
Qed.

Lemma checkSnapshot_pending_rejection_iff_witness :
  intersects cell2_15_25 cell1_10_20 = true
  /\ checkSnapshot scenarioUnmarshal (snapMsg "snapshot of shard 1")
       (mkWorld storePending2 [])
     = (Return (false, None), mkWorld storePending2 []).
Proof.
  split; [reflexivity|].
  apply (checkSnapshot_pending_rejection_iff scenarioUnmarshal
           (snapMsg "snapshot of shard 1") (mkWorld storePending2 [])
           (freshReplica 1%N) (RaftSnapshotData.mk cell1_10_20)).
  - reflexivity.
  - reflexivity.
  - discriminate.
  - reflexivity.
  - reflexivity.
  - reflexivity.
  - exists cell2_15_25. split; [simpl; auto|]. split; [discriminate|reflexivity].
Defined.

(** X6: on a store with an empty Key-Range Index and an empty Pending-Shard
    Set, every snapshot that reaches the overlap checks is accepted and
    becomes the only pending entry. *)
Theorem checkSnapshot_first_snapshot_admitted
    (Unmarshal : list byte -> error + RaftSnapshotData.t)
    (msg : RaftMessage.t) (w : World) (pr : PeerReplicate.t)
    (snapData : RaftSnapshotData.t) :
  let snapCell := RaftSnapshotData.Cell snapData in
  Store.keyRanges (store w) = [] ->
  Store.pendingCells (store w) = [] ->
  Store.replicates (store w) !! RaftMessage.CellID msg = Some pr ->
  isInitialized (PeerReplicate.ps pr) = false ->
  Snapshot.Data (Message.Snapshot (RaftMessage.Message msg)) <> [] ->
  Unmarshal (Snapshot.Data (Message.Snapshot (RaftMessage.Message msg)))
    = inr snapData ->
  containsPeerID (Cell.Peers snapCell) (Peer.ID (RaftMessage.ToPeer msg))
    = true ->
  checkSnapshot Unmarshal msg w = (Return (true, None), admitted w snapCell)
  /\ Store.pendingCells (store (admitted w snapCell)) = [snapCell].
Proof.
  intros snapCell Hkr Hpend Hpr Hinit Hdata Hdec Hfound.
  rewrite (reaches_overlap_checks Unmarshal msg w pr snapData
             Hpr Hinit Hdata Hdec Hfound).
  fold snapCell. rewrite passesLiveCheck_run.
  - unfold pendingStep, admitted. rewrite Hpend. auto.
  - unfold passesLiveCheck. rewrite Hkr. reflexivity.
Qed.

Lemma checkSnapshot_first_snapshot_admitted_witness :
  checkSnapshot twoShardUnmarshal (snapMsgFor 2%N "snapshot of shard 2")
    (mkWorld storeFresh12 [])
  = (Return (true, None), admitted (mkWorld storeFresh12 []) cell2_15_25)
  /\ Store.pendingCells
       (store (admitted (mkWorld storeFresh12 []) cell2_15_25))
     = [cell2_15_25].
Proof.
  apply (checkSnapshot_first_snapshot_admitted twoShardUnmarshal
           (snapMsgFor 2%N "snapshot of shard 2") (mkWorld storeFresh12 [])
           (freshReplica 2%N) (RaftSnapshotData.mk cell2_15_25)).
  - reflexivity.
  - reflexivity.
  - reflexivity.
  - reflexivity.
  - discriminate.
  - reflexivity.
  - reflexivity.
Defined.

(** ** Calls in sequence *)

(** X7: the same snapshot delivered twice is accepted twice.  If a call
    accepts a snapshot for a replica with uninitialized storage and a
    non-empty payload, the same envelope handed to [checkSnapshot] again,
    in the world the first call left, is accepted again and the descriptor
    is appended a second time. *)
Theorem checkSnapshot_same_envelope_again
    (Unmarshal : list byte -> error + RaftSnapshotData.t)
    (msg : RaftMessage.t) (w : World) (pr : PeerReplicate.t)
    (snapData : RaftSnapshotData.t) :
  let snapCell := RaftSnapshotData.Cell snapData in
  Store.replicates (store w) !! RaftMessage.CellID msg = Some pr ->
  isInitialized (PeerReplicate.ps pr) = false ->
  Snapshot.Data (Message.Snapshot (RaftMessage.Message msg)) <> [] ->
  Unmarshal (Snapshot.Data (Message.Snapshot (RaftMessage.Message msg)))
    = inr snapData ->
  fst (checkSnapshot Unmarshal msg w) = Return (true, None) ->
  checkSnapshot Unmarshal msg (snd (checkSnapshot Unmarshal msg w))
  = (Return (true, None),
     admitted (snd (checkSnapshot Unmarshal msg w)) snapCell)
  /\ Store.pendingCells
       (store (admitted (snd (checkSnapshot Unmarshal msg w)) snapCell))
     = Store.pendingCells (store w) ++ [snapCell; snapCell].
Proof.
  intros snapCell Hpr Hinit Hdata Hdec Hacc. subst snapCell.
  destruct (checkSnapshot_accept_admitted Unmarshal msg w pr
              Hpr Hinit Hdata Hacc)
    as (sd & Hdec' & Hfound & Hlive & Hnone & ->).
  rewrite Hdec in Hdec'. injection Hdec' as <-.
  cbn [snd]. split.
  - rewrite (reaches_overlap_checks Unmarshal msg (admitted w _) pr
               snapData Hpr Hinit Hdata Hdec Hfound).
    rewrite (passesLiveCheck_run _ (admitted w _) Hlive).
    unfold pendingStep. cbn [admitted store Store.pendingCells].
    rewrite anyPendingOverlaps_app, Hnone, anyPendingOverlaps_cons,
      pendingOverlaps_self.
    reflexivity.
  - cbn [admitted store Store.pendingCells]. rewrite <- app_assoc. reflexivity.
Qed.

Lemma checkSnapshot_same_envelope_again_witness :
  fst (checkSnapshot twoShardUnmarshal (snapMsgFor 1%N "snapshot of shard 1")
         (mkWorld storeFresh12 []))
    = Return (true, None)
  /\ Store.pendingCells
       (store (snd (checkSnapshot twoShardUnmarshal
                      (snapMsgFor 1%N "snapshot of shard 1")
                      (snd (checkSnapshot twoShardUnmarshal
                              (snapMsgFor 1%N "snapshot of shard 1")
                              (mkWorld storeFresh12 []))))))
     = [cell1_10_20; cell1_10_20].
Proof.
  split; [reflexivity|].
  pose proof (checkSnapshot_same_envelope_again twoShardUnmarshal
                (snapMsgFor 1%N "snapshot of shard 1")
                (mkWorld storeFresh12 []) (freshReplica 1%N)
                (RaftSnapshotData.mk cell1_10_20)) as H.
  destruct H as [H1 H2].
  - reflexivity.
  - reflexivity.
  - discriminate.
  - reflexivity.
  - reflexivity.
  - rewrite H1. exact H2.
Defined.

(** X8: two snapshots of different shards with intersecting ranges are never
    both admitted.  Once a call has accepted a snapshot for a replica with
    uninitialized storage and a non-empty payload, a later snapshot of
    another shard whose range intersects the first one, for a replica with
    uninitialized storage, is not accepted: the call rejects silently or
    panics, and the world stays as the first call left it. *)
Theorem checkSnapshot_intersecting_snapshots_exclude
    (Unmarshal : list byte -> error + RaftSnapshotData.t)
    (msgA msgB : RaftMessage.t) (w : World) (prA prB : PeerReplicate.t)
    (snapA snapB : RaftSnapshotData.t) :
  let w1 := snd (checkSnapshot Unmarshal msgA w) in
  Store.replicates (store w) !! RaftMessage.CellID msgA = Some prA ->
  isInitialized (PeerReplicate.ps prA) = false ->
  Snapshot.Data (Message.Snapshot (RaftMessage.Message msgA)) <> [] ->
  Unmarshal (Snapshot.Data (Message.Snapshot (RaftMessage.Message msgA)))
    = inr snapA ->
  fst (checkSnapshot Unmarshal msgA w) = Return (true, None) ->
  Store.replicates (store w) !! RaftMessage.CellID msgB = Some prB ->
  isInitialized (PeerReplicate.ps prB) = false ->
  Snapshot.Data (Message.Snapshot (RaftMessage.Message msgB)) <> [] ->
  Unmarshal (Snapshot.Data (Message.Snapshot (RaftMessage.Message msgB)))
    = inr snapB ->
  Cell.ID (RaftSnapshotData.Cell snapA)
    <> Cell.ID (RaftSnapshotData.Cell snapB) ->
  intersects (RaftSnapshotData.Cell snapA) (RaftSnapshotData.Cell snapB)
    = true ->
  checkSnapshot Unmarshal msgB w1 = (Return (false, None), w1)
  \/ checkSnapshot Unmarshal msgB w1 = (Panic, w1).
Proof.
  intros w1 HprA HinitA HdataA HdecA Hacc HprB HinitB HdataB HdecB Hid Hint.
  subst w1.
  destruct (checkSnapshot_accept_admitted Unmarshal msgA w prA
              HprA HinitA HdataA Hacc) as (sd & Hdec' & _ & _ & _ & ->).
  rewrite HdecA in Hdec'. injection Hdec' as <-. cbn [snd].
  rewrite (checkSnapshot_run Unmarshal msgB (admitted w _) prB HprB).
  cbv zeta. apply length_leb_0_false in HdataB.
  rewrite HinitB, HdataB, HdecB. cbn [orb].
  destruct (containsPeerID _ _); [|auto].
  rewrite checkOverlap_run. cbv zeta.
  assert (Hover : anyPendingOverlaps
                    (Store.pendingCells
                       (store (admitted w (RaftSnapshotData.Cell snapA))))
                    (RaftSnapshotData.Cell snapB) = true).
  { cbn [admitted store Store.pendingCells].
    rewrite anyPendingOverlaps_app, anyPendingOverlaps_cons,
      pendingOverlaps_intersects, Hint.
    apply N.eqb_neq in Hid. rewrite Hid. apply orb_true_r. }
  unfold pendingStep. rewrite Hover.
  destruct (0 <? Cell.ID _)%N; [|auto].
  destruct (Store.replicates _ !! Cell.ID (Search _ _)) as [pe|]; [|auto].
  destruct (bytes.Compare _ _ <? 0); auto.
Qed.

Lemma checkSnapshot_intersecting_snapshots_exclude_witness :
  fst (checkSnapshot twoShardUnmarshal (snapMsgFor 1%N "snapshot of shard 1")
         (mkWorld storeFresh12 []))
    = Return (true, None)
  /\ intersects cell1_10_20 cell2_15_25 = true
  /\ fst (checkSnapshot twoShardUnmarshal
            (snapMsgFor 2%N "snapshot of shard 2")
            (snd (checkSnapshot twoShardUnmarshal
                    (snapMsgFor 1%N "snapshot of shard 1")
                    (mkWorld storeFresh12 []))))
     <> Return (true, None).
Proof.
  split; [reflexivity|]. split; [reflexivity|].
  pose proof (checkSnapshot_intersecting_snapshots_exclude twoShardUnmarshal
                (snapMsgFor 1%N "snapshot of shard 1")
                (snapMsgFor 2%N "snapshot of shard 2")
                (mkWorld storeFresh12 [])
                (freshReplica 1%N) (freshReplica 2%N)
                (RaftSnapshotData.mk cell1_10_20)
                (RaftSnapshotData.mk cell2_15_25)) as H.
  cbv zeta in H.
  destruct H as [H|H];
    try reflexivity; try discriminate; rewrite H; discriminate.
Defined.

(** ** An invariant of the Pending-Shard Set *)

(** X9: [checkSnapshot] keeps the Pending-Shard Set free of collisions.  If
    no two pending entries of different shards have intersecting ranges
    before a call, the same holds after it, whatever the call ends in. *)
Theorem checkSnapshot_keeps_pendingDisjoint
    (Unmarshal : list byte -> error + RaftSnapshotData.t)
    (msg : RaftMessage.t) (w : World) :
  pendingDisjoint (Store.pendingCells (store w)) = true ->
  pendingDisjoint
    (Store.pendingCells (store (snd (checkSnapshot Unmarshal msg w)))) = true.
Proof.
  intros Hinv.
  destruct (checkSnapshot_cases Unmarshal msg w)
    as [-> | (snapData & _ & Hnone & ->)]; [exact Hinv|].
  cbn [snd admitted store Store.pendingCells].
  set (s := RaftSnapshotData.Cell snapData) in *.
  assert (Hnew : forall c, In c (Store.pendingCells (store w)) ->
                           compatible c s = true).
  { intros c Hc.
    pose proof (proj1 (anyPendingOverlaps_false _ _) Hnone c Hc) as Ho.
    rewrite pendingOverlaps_compatible in Ho.
    destruct (compatible c s); [reflexivity|discriminate]. }
  rewrite pendingDisjoint_spec in Hinv. apply pendingDisjoint_spec.
  intros c d Hc Hd.
  apply in_app_or in Hc. apply in_app_or in Hd.
  destruct Hc as [Hc|[<-|[]]], Hd as [Hd|[<-|[]]].
  - auto.
  - auto.
  - rewrite compatible_sym. auto.
  - apply compatible_refl.
Qed.

Lemma checkSnapshot_keeps_pendingDisjoint_witness :
  pendingDisjoint (Store.pendingCells storePending2) = true
  /\ pendingDisjoint
       (Store.pendingCells
          (store (snd (checkSnapshot scenarioUnmarshal
                         (snapMsg "snapshot of shard 1 at 20-30")
                         (mkWorld storePending2 []))))) = true.
Proof.
  split; [reflexivity|].
  apply (checkSnapshot_keeps_pendingDisjoint scenarioUnmarshal
           (snapMsg "snapshot of shard 1 at 20-30")
           (mkWorld storePending2 [])).
  reflexivity.
Defined.

(** ** The decision from the persisted record *)

(** X10: lines 77-112 of [isMsgStale], for whatever [loadCellLocalState]
    answered.  The block hands an error back exactly when the load failed,
    or the record is not a tombstone, or the record is a tombstone, the
    message epoch is not stale against it and both have the same
    configuration version.  It reports stale exactly when the record is a
    tombstone and the message epoch is stale against it.  It changes the
    world only when it reports stale, and then only by one disposition
    whose force-GC flag is set exactly for a vote request from a store
    without a peer in the tombstone's membership. *)
Theorem checkLocalState_verdicts
    (msg : RaftMessage.t) (loaded : error + option CellLocalState.t)
    (w : World) :
  let fromEpoch := RaftMessage.CellEpoch msg in
  (returnsError (fst (checkLocalState msg loaded w)) = true <->
   (exists err, loaded = inl err)
   \/ exists localState,
        loaded = inr (Some localState)
        /\ (CellLocalState.State localState <> Tombstone
            \/ (isEpochStale fromEpoch
                  (Cell.Epoch (CellLocalState.Cell localState)) = false
                /\ CellEpoch.ConfVer fromEpoch
                   = CellEpoch.ConfVer
                       (Cell.Epoch (CellLocalState.Cell localState)))))
  /\ (fst (checkLocalState msg loaded w) = Return (true, None) <->
      exists c,
        loaded = inr (Some (CellLocalState.mk Tombstone c))
        /\ isEpochStale fromEpoch (Cell.Epoch c) = true)
  /\ (forall c,
        loaded = inr (Some (CellLocalState.mk Tombstone c)) ->
        isEpochStale fromEpoch (Cell.Epoch c) = true ->
        snd (checkLocalState msg loaded w)
        = mkWorld (store w)
            (trace w ++
             [StaleMsg msg (Cell.Epoch c)
                (MessageType_eqb (Message.Type_ (RaftMessage.Message msg))
                   MsgVote
                 && negb (isNotNil
                            (findPeer c
                               (Peer.StoreID (RaftMessage.FromPeer msg)))))]))
  /\ (fst (checkLocalState msg loaded w) <> Return (true, None) ->
      snd (checkLocalState msg loaded w) = w).
Proof.
  cbv zeta. destruct loaded as [err|[localState|]].
  - split; [|split; [|split]].
    + split; [intros _; left; eauto | reflexivity].
    + split; [discriminate | intros (c & H & _); discriminate].
    + intros c H. discriminate.
    + reflexivity.
  - split; [|split; [|split]].
    + rewrite checkLocalState_error_iff. split.
      * intros H. right. exists localState. auto.
      * intros [(err & H)|(ls & H & Hcase)]; [discriminate|].
        injection H as <-. exact Hcase.
    + destruct localState as [[] c]; unfold checkLocalState, bind; simpl.
      * split; [discriminate | intros (c' & H & _); discriminate].
      * destruct (isEpochStale _ _) eqn:E; simpl.
        -- split; [intros _; exists c; auto | reflexivity].
        -- split.
           ++ destruct (_ =? _)%N; discriminate.
           ++ intros (c' & H & Hs). injection H as <-. congruence.
    + intros c H Hs. injection H as ->.
      rewrite (checkLocalState_tombstone_stale msg w c Hs). reflexivity.
    + destruct localState as [[] c]; unfold checkLocalState, bind; simpl.
      * reflexivity.
      * destruct (isEpochStale _ _); simpl.
        -- intros H. exfalso. apply H. reflexivity.
        -- destruct (_ =? _)%N; reflexivity.
  - split; [|split; [|split]].
    + split; [discriminate|].
      intros [(err & H)|(ls & H & _)]; discriminate.
    + split; [discriminate | intros (c & H & _); discriminate].
    + intros c H. discriminate.
    + reflexivity.
Qed.

(** ** What an accepted snapshot guarantees *)

(** X11: when [checkSnapshot] accepts a snapshot for a replica with
    uninitialized storage and a non-empty payload, the decoded descriptor
    lists a peer with the id of the target peer (whatever that peer's store
    id), and its range intersects no pending entry of another shard. *)
Theorem checkSnapshot_accept_sound
    (Unmarshal : list byte -> error + RaftSnapshotData.t)
    (msg : RaftMessage.t) (w : World) (pr : PeerReplicate.t)
    (snapData : RaftSnapshotData.t) :
  let snapCell := RaftSnapshotData.Cell snapData in
  Store.replicates (store w) !! RaftMessage.CellID msg = Some pr ->
  isInitialized (PeerReplicate.ps pr) = false ->
  Snapshot.Data (Message.Snapshot (RaftMessage.Message msg)) <> [] ->
  Unmarshal (Snapshot.Data (Message.Snapshot (RaftMessage.Message msg)))
    = inr snapData ->
  fst (checkSnapshot Unmarshal msg w) = Return (true, None) ->
  (exists p, In p (Cell.Peers snapCell)
             /\ Peer.ID p = Peer.ID (RaftMessage.ToPeer msg))
  /\ (forall c, In c (Store.pendingCells (store w)) ->
                Cell.ID c <> Cell.ID snapCell ->
                intersects c snapCell = false).
Proof.
  intros snapCell Hpr Hinit Hdata Hdec Hacc. subst snapCell.
  destruct (checkSnapshot_accept_admitted Unmarshal msg w pr
              Hpr Hinit Hdata Hacc) as (sd & Hdec' & Hfound & _ & Hnone & _).
  rewrite Hdec in Hdec'. injection Hdec' as <-. split.
  - apply containsPeerID_iff. exact Hfound.
  - intros c Hc Hid.
    pose proof (proj1 (anyPendingOverlaps_false _ _) Hnone c Hc) as Ho.
    rewrite pendingOverlaps_intersects in Ho.
    apply N.eqb_neq in Hid. rewrite Hid in Ho.
    destruct (intersects c _); [discriminate|reflexivity].
Qed.

Lemma checkSnapshot_accept_sound_witness :
  fst (checkSnapshot scenarioUnmarshal
         (snapMsg "snapshot of shard 1 at 20-30") (mkWorld storePending1 []))
    = Return (true, None)
  /\ (exists p, In p (Cell.Peers cell1_20_30)
                /\ Peer.ID p
                   = Peer.ID (RaftMessage.ToPeer
                                (snapMsg "snapshot of shard 1 at 20-30")))
  /\ (forall c, In c (Store.pendingCells storePending1) ->
                Cell.ID c <> Cell.ID cell1_20_30 ->
                intersects c cell1_20_30 = false).
Proof.
  split; [reflexivity|].
  apply (checkSnapshot_accept_sound scenarioUnmarshal
           (snapMsg "snapshot of shard 1 at 20-30") (mkWorld storePending1 [])
           (freshReplica 1%N) (RaftSnapshotData.mk cell1_20_30)).
  - reflexivity.
  - reflexivity.
  - discriminate.
  - reflexivity.
  - reflexivity.
Defined.
